(** * sync-autoreboot: the client watchdog of [app.js]

    A shallow embedding of the watchdog client: the alarm state machine
    ([setAlarm]), the sample handling of [checkTimestamp], the reboot
    guard ([getLastRebootTimestamp], [setLastRebootTimestamp],
    [restartSystem]), the interval callback of [startClient] and the
    start-up sequence at the end of the file.

    Conventions of the embedding.
    - JavaScript numbers that hold time values are integers of magnitude
      below 2^53, on which double arithmetic is exact: they are [Z], and
      the one place where a [NaN] can flow ([new Date(..).getTime()] and
      [parseInt]) uses [number].
    - The module-level [let] variables [alarm] and [timestamp_alarm], the
      guard file and the system clock live in a [World]; every function of
      the source is a computation in the monad [JS], which threads the
      world, collects the outward effects in order and propagates thrown
      exceptions to the nearest [catch].
    - Every [Date.now()] and every [new Date()] is one reading of the
      clock; the clock is a sequence of readings, so two readings of one
      run may differ.
    - An [async] function is split at its [await]: the part before it runs
      inside the caller's job, the part after it runs as a job of its own
      once the awaited promise has settled.
    - The guard file holds bytes. Reading it with the encoding "utf-8"
      decodes them into code points, and [trim] and [parseInt] work on
      those with the white space of ECMAScript; the text the source writes
      is ASCII, which UTF-8 leaves as it is. *)

From Stdlib Require Import ZArith NArith String Ascii List Bool Lia.
From Stdlib Require Import DecimalString DecimalPos DecimalZ.
From ExtLib Require Import Structures.Monad Structures.MonadExc.
Import ListNotations.
Import MonadNotation.

Local Open Scope string_scope.
Local Open Scope monad_scope.
Local Open Scope Z_scope.

(** ** Numbers *)

(** A JavaScript number that is either an integer or [NaN]. *)
Inductive number : Type :=
| Num (z : Z)
| NaN.

(** [a - b] *)
Definition number_sub (a b : number) : number :=
  match a, b with
  | Num x, Num y => Num (x - y)
  | _, _ => NaN
  end.

(** [Math.abs(a)] *)
Definition Math_abs (a : number) : number :=
  match a with
  | Num x => Num (Z.abs x)
  | NaN => NaN
  end.

(** [a > b]: every comparison with [NaN] is false. *)
Definition number_gt (a b : number) : bool :=
  match a, b with
  | Num x, Num y => y <? x
  | _, _ => false
  end.

(** [a || 0] on numbers: [NaN] and [0] are falsy. *)
Definition or_zero (a : number) : Z :=
  match a with
  | Num x => x
  | NaN => 0
  end.

(** ** Text: UTF-8, [trim], [parseInt(_, 10)] and [Number.prototype.toString] *)

(** The bytes of a file; for an ASCII string these are its code points
    too. *)
Definition bytes_of (s : string) : list N :=
  map N_of_ascii (list_ascii_of_string s).

(** What a byte is at the start of a UTF-8 sequence: a code point of its
    own, the lead of a sequence that needs [needed] more bytes, the first
    of them between [lower] and [upper], or no start at all. *)
Inductive Utf8Lead : Type :=
| Single (c : N)
| Lead (cp : N) (needed : nat) (lower upper : N)
| Invalid.

Definition utf8_lead (b : N) : Utf8Lead :=
  if (b <=? 127)%N then Single b
  else if ((194 <=? b) && (b <=? 223))%N then Lead (N.land b 31) 1 128 191
  else if ((224 <=? b) && (b <=? 239))%N then
    Lead (N.land b 15) 2 (if (b =? 224)%N then 160 else 128)
         (if (b =? 237)%N then 159 else 191)
  else if ((240 <=? b) && (b <=? 244))%N then
    Lead (N.land b 7) 3 (if (b =? 240)%N then 144 else 128)
         (if (b =? 244)%N then 143 else 191)
  else Invalid.

(** The UTF-8 decoder that [buffer.toString("utf-8")] applies: an
    ill-formed sequence gives U+FFFD (65533) and decoding resumes at the
    byte that broke it; a byte order mark is kept. [cp] and [needed] are
    the code point under way and the bytes it still needs. *)
Fixpoint utf8_continue (bytes : list N) (cp : N) (needed : nat)
    (lower upper : N) : list N :=
  match bytes with
  | [] => match needed with O => [] | S _ => [65533%N] end
  | b :: rest =>
      let start :=
        match utf8_lead b with
        | Single c => c :: utf8_continue rest 0 0 128 191
        | Lead cp' n lo up => utf8_continue rest cp' n lo up
        | Invalid => 65533%N :: utf8_continue rest 0 0 128 191
        end in
      match needed with
      | O => start
      | S n =>
          if ((lower <=? b) && (b <=? upper))%N then
            let cp' := (cp * 64 + N.land b 63)%N in
            match n with
            | O => cp' :: utf8_continue rest 0 0 128 191
            | S _ => utf8_continue rest cp' n 128 191
            end
          else 65533%N :: start
      end
  end.

(** The text of a file read with the encoding "utf-8", as code points. A
    code point above U+FFFF is two code units in JavaScript; neither is
    white space, a sign or a digit, so [trim] and [parseInt] see no
    difference. *)
Definition utf8_decode (s : string) : list N :=
  utf8_continue (bytes_of s) 0 0 128 191.

(** White space and line terminators of ECMAScript: TAB, LF, VT, FF, CR,
    SP, NBSP, U+1680, U+2000 to U+200A, U+2028, U+2029, U+202F, U+205F,
    U+3000 and U+FEFF. *)
Definition is_white_space (c : N) : bool :=
  existsb (N.eqb c)
    [9; 10; 11; 12; 13; 32; 160; 5760; 8232; 8233; 8239; 8287; 12288; 65279]%N
  || ((8192 <=? c) && (c <=? 8202))%N.

Fixpoint trim_start (s : list N) : list N :=
  match s with
  | c :: s' => if is_white_space c then trim_start s' else s
  | [] => []
  end.

(** [s.trim()] *)
Definition trim (s : list N) : list N :=
  rev (trim_start (rev (trim_start s))).

Definition digit_value (c : N) : option Z :=
  if ((48 <=? c) && (c <=? 57))%N then Some (Z.of_N c - 48) else None.

(** The longest prefix of decimal digits, read left to right; [acc] is
    [None] as long as no digit was seen. *)
Fixpoint parse_digits (s : list N) (acc : option Z) : option Z :=
  match s with
  | c :: s' =>
      match digit_value c with
      | Some d =>
          parse_digits s' (Some (10 * match acc with Some a => a | None => 0 end + d))
      | None => acc
      end
  | [] => acc
  end.

(** [parseInt(s, 10)]: leading white space, an optional sign (45 is "-",
    43 is "+"), then the longest prefix of digits; [NaN] when there is no
    digit. The result here is the integer the digits denote; the source's
    is the double nearest to it, which is that integer up to 2^53, the
    range of the time values (see the conventions above). *)
Definition parseInt (s : list N) : number :=
  let s := trim_start s in
  let '(negative, body) :=
    match s with
    | c :: r =>
        if (c =? 45)%N then (true, r)
        else if (c =? 43)%N then (false, r)
        else (false, s)
    | [] => (false, s)
    end in
  match parse_digits body None with
  | Some n => Num (if negative then - n else n)
  | None => NaN
  end.

(** [n.toString()] of an integer. *)
Definition toString (n : Z) : string :=
  NilZero.string_of_int (Z.to_int n).

(** ** Effects, errors and the world *)

(** The messages of [log], one constructor per call site. *)
Inductive Message : Type :=
| TimestampOutOfSync (diff : number)        (* line 76 *)
| TimestampOK (diff : number)               (* line 79 *)
| ErrorGettingTimestamp (message : string)  (* line 83 *)
| AlarmTimerActivated                       (* line 96 *)
| AlarmDeactivated                          (* line 100 *)
| ErrorWritingRebootFile (message : string) (* line 124 *)
| RestartSkipped                            (* line 138 *)
| RestartingSystem                          (* line 143 *)
| ErrorRestarting (message : string)        (* line 159 *)
| ErrorExecutingRestart (stderr : string)   (* line 162 *)
| RestartCommandExecuted                    (* line 165 *)
| CommandOutput (stdout : string)           (* line 167 *)
| ClientModeActivated                       (* line 177 *)
| ClientSettings                            (* line 179 *)
| ServerModeActivated                       (* line 198 *)
| ServerSettings                            (* line 200 *)
| DevelopmentModeActivated                  (* line 237 *)
| ProductionModeActivated                   (* line 241 *)
| UnknownModeAssumingProduction             (* line 244 *)
| ApiUrl.                                   (* lines 238, 242, 248 *)

(** What a run does to the outside, in the order it does it. *)
Inductive Effect : Type :=
| Log (ts : Z) (msg : Message)   (* console.log, with the reading of [new Date()] *)
| HttpGet                        (* axios.get(API_URL) *)
| WriteFile (data : string)      (* fs.writeFileSync(RESTART_GUARD_FILE, data) is called *)
| Exec (cmd : string)            (* child_process.exec(cmd, callback) *)
| SetInterval                    (* setInterval(callback, CHECK_INTERVAL) *)
| Listen                         (* app.listen(PORT, ..) *)
| Usage.                         (* the two console.log calls of lines 258-261 *)

Record Error : Type := mkError { message : string }.

Record World : Type := mkWorld {
  alarm : bool;                  (* let alarm, line 49 *)
  timestamp_alarm : Z;           (* let timestamp_alarm, line 50 *)
  guard_file : option string;    (* the bytes of last_reboot.txt; None: reading it throws *)
  guard_writable : bool;         (* false: writing last_reboot.txt throws *)
  clock : nat -> Z;              (* the successive readings of the system clock *)
  reads : nat;                   (* how many readings were taken so far *)
  in_flight : nat;               (* axios requests not settled yet *)
  guard_write_failure : string   (* [err.message] of the error a write that fails throws *)
}.

Definition set_alarm (b : bool) (w : World) : World :=
  mkWorld b (timestamp_alarm w) (guard_file w) (guard_writable w)
          (clock w) (reads w) (in_flight w) (guard_write_failure w).

Definition set_timestamp_alarm (t : Z) (w : World) : World :=
  mkWorld (alarm w) t (guard_file w) (guard_writable w)
          (clock w) (reads w) (in_flight w) (guard_write_failure w).

Definition set_guard_file (f : option string) (w : World) : World :=
  mkWorld (alarm w) (timestamp_alarm w) f (guard_writable w)
          (clock w) (reads w) (in_flight w) (guard_write_failure w).

Definition set_reads (n : nat) (w : World) : World :=
  mkWorld (alarm w) (timestamp_alarm w) (guard_file w) (guard_writable w)
          (clock w) n (in_flight w) (guard_write_failure w).

Definition set_in_flight (n : nat) (w : World) : World :=
  mkWorld (alarm w) (timestamp_alarm w) (guard_file w) (guard_writable w)
          (clock w) (reads w) n (guard_write_failure w).

(** The value the next [Date.now()] returns. *)
Definition next_reading (w : World) : Z := clock w (reads w).

(** ** The monad of JavaScript computations *)

Inductive Completion (A : Type) : Type :=
| Normal (a : A)
| Throw (e : Error).
Arguments Normal {A} a.
Arguments Throw {A} e.

Record Outcome (A : Type) : Type := mkOutcome {
  completion : Completion A;
  world : World;
  emitted : list Effect
}.
Arguments mkOutcome {A} _ _ _.
Arguments completion {A} _.
Arguments world {A} _.
Arguments emitted {A} _.

Definition JS (A : Type) : Type := World -> Outcome A.

Definition JS_ret {A} (a : A) : JS A :=
  fun w => mkOutcome (Normal a) w [].

(** Sequencing: the world and the effects of the first part stay when it
    throws (JavaScript rolls nothing back). *)
Definition JS_bind {A B} (m : JS A) (f : A -> JS B) : JS B :=
  fun w =>
    let o := m w in
    match completion o with
    | Normal a =>
        let o' := f a (world o) in
        mkOutcome (completion o') (world o') (emitted o ++ emitted o')
    | Throw e => mkOutcome (Throw e) (world o) (emitted o)
    end.

Definition JS_throw {A} (e : Error) : JS A :=
  fun w => mkOutcome (Throw e) w [].

(** [try { m } catch (e) { handler e }] *)
Definition JS_catch {A} (m : JS A) (handler : Error -> JS A) : JS A :=
  fun w =>
    let o := m w in
    match completion o with
    | Normal a => o
    | Throw e =>
        let o' := handler e (world o) in
        mkOutcome (completion o') (world o') (emitted o ++ emitted o')
    end.

#[export] Instance Monad_JS : Monad JS :=
  {| ret := @JS_ret; bind := @JS_bind |}.

#[export] Instance MonadExc_JS : MonadExc Error JS :=
  {| raise := @JS_throw; catch := @JS_catch |}.

Definition get {A} (field : World -> A) : JS A :=
  fun w => mkOutcome (Normal (field w)) w [].

Definition modify (f : World -> World) : JS unit :=
  fun w => mkOutcome (Normal tt) (f w) [].

Definition emit (e : Effect) : JS unit :=
  fun w => mkOutcome (Normal tt) w [e].

(** [Date.now()] *)
Definition Date_now : JS Z :=
  fun w => mkOutcome (Normal (next_reading w)) (set_reads (S (reads w)) w) [].

(** [log(msg)], lines 19-22: the time stamp is a clock reading of its own. *)
Definition log (msg : Message) : JS unit :=
  ts <- Date_now ;;
  emit (Log ts msg).

(** [fs.readFileSync(RESTART_GUARD_FILE, "utf-8")]: the decoded text of
    the file. The message of the error is never looked at: the [catch] of
    line 112 binds nothing. *)
Definition readFileSync : JS (list N) :=
  f <- get guard_file ;;
  match f with
  | Some data => ret (utf8_decode data)
  | None => raise (mkError "ENOENT: no such file or directory")
  end.

(** [fs.writeFileSync(RESTART_GUARD_FILE, data)]: a failed write throws
    the error of the file system, whose message the world gives, and
    leaves the file as it was. *)
Definition writeFileSync (data : string) : JS unit :=
  emit (WriteFile data) ;;
  ok <- get guard_writable ;;
  if ok : bool then modify (set_guard_file (Some data))
  else (failure <- get guard_write_failure ;; raise (mkError failure)).

(** ** The response of the reference endpoint *)

(** What [response.data] is once the request was answered. *)
Inductive Payload : Type :=
| NoData                  (* data is null or undefined: reading [.timestamp] throws *)
| Timestamp (t : number). (* [new Date(response.data.timestamp).getTime()]:
                             the time value of the field, [NaN] when the field
                             is absent or is not a date *)

(** How the promise of [axios.get(API_URL)] settles. *)
Inductive Response : Type :=
| Rejected (reason : string)   (* network error, timeout, status outside 2xx *)
| Fulfilled (data : Payload).

(** [await p] for a promise that settled as [r]. *)
Definition await (r : Response) : JS Payload :=
  match r with
  | Rejected reason => raise (mkError reason)
  | Fulfilled data => ret data
  end.

(** [new Date(data.timestamp).getTime()] *)
Definition getTime_of_timestamp (data : Payload) : JS number :=
  match data with
  | NoData => raise (mkError "Cannot read properties of undefined (reading 'timestamp')")
  | Timestamp t => ret t
  end.

Definition non_empty (s : string) : bool :=
  match s with
  | EmptyString => false
  | String _ _ => true
  end.

(** ** The client *)

Section Client.

Variable env : string.                   (* const env, line 13 *)
Variable platform : string.              (* process.platform *)
Variable ALLOWED_DIFFERENCE : Z.         (* lines 42-43, milliseconds *)
Variable TIMEOUT_DURATION : Z.           (* line 44, milliseconds *)
Variable MIN_REBOOT_INTERVAL : Z.        (* lines 45-46, milliseconds *)

(** Lines 28-30. *)
Definition isDevelopmentMode : bool := String.eqb env "development".

(** Lines 36-38. *)
Definition isProductionMode : bool := String.eqb env "production".

(** Lines 92-102. *)
Definition setAlarm (state : bool) : JS unit :=
  armed <- get alarm ;;
  if state && negb armed then
    (modify (set_alarm true) ;;
     now <- Date_now ;;
     modify (set_timestamp_alarm (now + TIMEOUT_DURATION)) ;;
     log AlarmTimerActivated)
  else if negb state && armed then
    (modify (set_alarm false) ;;
     modify (set_timestamp_alarm 0) ;;
     log AlarmDeactivated)
  else ret tt.

(** Lines 67-69: the part of [checkTimestamp] that runs inside the
    caller's job. The request is sent and the function returns its
    promise; the caller does not wait for it. *)
Definition checkTimestamp_call : JS unit :=
  emit HttpGet ;;
  n <- get in_flight ;;
  modify (set_in_flight (S n)).

(** Lines 69-85: the part of [checkTimestamp] after the [await], run as
    a job of its own when the request has settled as [r]. *)
Definition checkTimestamp_resume (r : Response) : JS unit :=
  catch
    (response_data <- await r ;;
     apiTimestamp <- getTime_of_timestamp response_data ;;
     localTimestamp <- Date_now ;;
     let diff := Math_abs (number_sub (Num localTimestamp) apiTimestamp) in
     if number_gt diff (Num ALLOWED_DIFFERENCE) then
       (log (TimestampOutOfSync diff) ;; setAlarm true)
     else
       (log (TimestampOK diff) ;; setAlarm false))
    (fun error =>
       log (ErrorGettingTimestamp (message error)) ;;
       setAlarm true).

(** Lines 108-115. *)
Definition getLastRebootTimestamp : JS Z :=
  catch
    (data <- readFileSync ;;
     ret (or_zero (parseInt (trim data))))
    (fun _ => ret 0).

(** Lines 120-126. *)
Definition setLastRebootTimestamp : JS unit :=
  catch
    (now <- Date_now ;;
     writeFileSync (toString now))
    (fun err => log (ErrorWritingRebootFile (message err))).

(** Lines 145-153. *)
Definition restart_command : string :=
  if isDevelopmentMode then
    (if String.eqb platform "win32" then "cmd /c echo Win Shutdown"
     else "echo Unix Shutdown")
  else
    (if String.eqb platform "win32" then "shutdown /r /t 60"
     else "sudo shutdown -r +1").

(** Lines 132-171, up to the call of [exec]. *)
Definition restartSystem : JS unit :=
  now <- Date_now ;;
  last <- getLastRebootTimestamp ;;
  if now - last <? MIN_REBOOT_INTERVAL then
    log RestartSkipped
  else
    (setLastRebootTimestamp ;;
     log RestartingSystem ;;
     emit (Exec restart_command)).

(** Lines 155-170: the callback of [exec], run when the command ended. *)
Definition exec_callback (error : option Error) (stdout stderr : string)
  : JS unit :=
  if (match error with Some _ => true | None => false end) || non_empty stderr then
    ((match error with
      | Some e => log (ErrorRestarting (message e))
      | None => ret tt
      end) ;;
     (if non_empty stderr then log (ErrorExecutingRestart stderr) else ret tt))
  else
    (log RestartCommandExecuted ;;
     (if non_empty stdout then log (CommandOutput stdout) else ret tt)).

(** Line 188: [alarm && Date.now() >= timestamp_alarm]; the clock is
    read only when the alarm is set. *)
Definition alarm_matured : JS bool :=
  armed <- get alarm ;;
  if armed : bool then
    (now <- Date_now ;;
     deadline <- get timestamp_alarm ;;
     ret (deadline <=? now))
  else ret false.

(** Lines 186-191: the callback given to [setInterval]. [checkTimestamp()]
    returns at its [await]; the test of the alarm follows in the same job. *)
Definition interval_callback : JS unit :=
  checkTimestamp_call ;;
  matured <- alarm_matured ;;
  if matured : bool then restartSystem else ret tt.

(** Lines 176-192. *)
Definition startClient : JS unit :=
  log ClientModeActivated ;;
  log ClientSettings ;;
  checkTimestamp_call ;;
  emit SetInterval.

(** Lines 197-224. *)
Definition startServer : JS unit :=
  log ServerModeActivated ;;
  log ServerSettings ;;
  emit Listen.

(** *** The event loop of the client *)

(** What the event loop can run next once [startClient] has returned. *)
Inductive Event : Type :=
| IntervalFires
| RequestSettles (r : Response)
| ExecCompletes (error : option Error) (stdout stderr : string).

(** The job an event starts; each job runs to completion. *)
Definition job (e : Event) : JS unit :=
  match e with
  | IntervalFires => interval_callback
  | RequestSettles r =>
      n <- get in_flight ;;
      modify (set_in_flight (Nat.pred n)) ;;
      checkTimestamp_resume r
  | ExecCompletes error stdout stderr => exec_callback error stdout stderr
  end.

(** A request can only settle while one is in flight. *)
Definition enabled (e : Event) (w : World) : bool :=
  match e with
  | RequestSettles _ => negb (Nat.eqb (in_flight w) 0)
  | _ => true
  end.

(** The jobs of a sequence of events, one after the other. *)
Fixpoint run_events (es : list Event) : JS unit :=
  match es with
  | [] => ret tt
  | e :: es' => job e ;; run_events es'
  end.

(** Every event of the sequence is enabled when its turn comes. *)
Fixpoint schedulable (es : list Event) (w : World) : bool :=
  match es with
  | [] => true
  | e :: es' => enabled e w && schedulable es' (world (job e w))
  end.

(** Whether the job that settles [r] in world [w] takes the sample as out
    of sync, that is calls [setAlarm(true)]: lines 75, 77 and 84. *)
Definition out_of_sync_at (r : Response) (w : World) : bool :=
  match r with
  | Rejected _ => true
  | Fulfilled NoData => true
  | Fulfilled (Timestamp t) =>
      number_gt (Math_abs (number_sub (Num (next_reading w)) t))
                (Num ALLOWED_DIFFERENCE)
  end.

(** No sample that settles during the events [es] is taken as in sync. *)
Fixpoint no_in_sync_sample (es : list Event) (w : World) : bool :=
  match es with
  | [] => true
  | e :: es' =>
      match e with
      | RequestSettles r => out_of_sync_at r w
      | _ => true
      end
      && no_in_sync_sample es' (world (job e w))
  end.

(** The client from its start: [startClient], then the jobs of the
    events that follow. *)
Definition client (es : list Event) : JS unit :=
  startClient ;;
  run_events es.

End Client.

(** The variables of lines 49-50 when the module has been loaded. *)
Definition initial_world (file : option string) (writable : bool)
    (readings : nat -> Z) (failure : string) : World :=
  mkWorld false 0 file writable readings 0 0 failure.

(** ** Program start-up, lines 226-262 *)

(** Line 13: [process.env.NODE_ENV || "production"]; the variable is a
    string when it is set, and the empty string is falsy. *)
Definition env_of (NODE_ENV : option string) : string :=
  match NODE_ENV with
  | Some s => if non_empty s then s else "production"
  | None => "production"
  end.

(** [args.includes(flag)] *)
Definition includes (args : list string) (flag : string) : bool :=
  existsb (String.eqb flag) args.

(** The statements of the module from line 230 on. [env] is declared with
    [const], so the assignment of line 247 throws a [TypeError]. *)
Definition main (NODE_ENV : option string) (platform : string)
    (ALLOWED_DIFFERENCE TIMEOUT_DURATION MIN_REBOOT_INTERVAL : Z)
    (args : list string) : JS unit :=
  let env := env_of NODE_ENV in
  let isClient := includes args "--client" in
  let isServer := includes args "--server" in
  (if isDevelopmentMode env then
     (log DevelopmentModeActivated ;; log ApiUrl)
   else if isProductionMode env then
     (log ProductionModeActivated ;; log ApiUrl)
   else
     (log UnknownModeAssumingProduction ;;
      (raise (mkError "Assignment to constant variable.") : JS unit) ;;
      log ApiUrl)) ;;
  (if isServer then startServer else ret tt) ;;
  (if isClient then startClient else ret tt) ;;
  (if negb isServer && negb isClient then emit Usage else ret tt).

(** ** The alarm as the state machine of the specification *)

Inductive AlarmState : Type :=
| Clear
| Armed (raisedAt : Z).

Inductive Sample : Type :=
| inSync
| outOfSync.

(** The argument [checkTimestamp] gives to [setAlarm] for a sample. *)
Definition alarm_argument (s : Sample) : bool :=
  match s with
  | inSync => false
  | outOfSync => true
  end.

(** The transition table as the specification words it, to compare
    [setAlarm] with. *)
Definition spec_alarm_transition (s : AlarmState) (sample : Sample) (now : Z)
  : AlarmState :=
  match s, sample with
  | Clear, outOfSync => Armed now
  | Armed _, inSync => Clear
  | Armed raisedAt, outOfSync => Armed raisedAt
  | Clear, inSync => Clear
  end.

(** The state of the machine held by the two variables: the source keeps
    the deadline [raisedAt + TIMEOUT_DURATION] in [timestamp_alarm]. *)
Definition alarm_state (TIMEOUT_DURATION : Z) (w : World) : AlarmState :=
  if alarm w then Armed (timestamp_alarm w - TIMEOUT_DURATION) else Clear.

(** [raisedAt] is set exactly when the alarm is active; the source writes
    an unset time stamp as [0]. *)
Definition alarm_invariant (w : World) : Prop :=
  timestamp_alarm w <> 0 <-> alarm w = true.

(** ** The reboot as an observation of a run *)

Definition is_exec (e : Effect) : bool :=
  match e with
  | Exec _ => true
  | _ => false
  end.

Definition is_log (e : Effect) : bool :=
  match e with
  | Log _ _ => true
  | _ => false
  end.

(** The run issued the reboot command. *)
Definition reboot_issued {A} (o : Outcome A) : bool :=
  existsb is_exec (emitted o).

(** The value [getLastRebootTimestamp()] returns in world [w]. *)
Definition recorded_last (w : World) : Z :=
  match completion (getLastRebootTimestamp w) with
  | Normal last => last
  | Throw _ => 0
  end.

(** A text of white space only. *)
Definition white (s : list N) : Prop := forallb is_white_space s = true.

(** A text at which a run of digits ends: it is empty or starts with a
    character that is no digit. *)
Definition stops_digits (rest : list N) : Prop :=
  match rest with
  | c :: _ => digit_value c = None
  | [] => True
  end.

(** ** Clocks and messages for the worked examples *)

(** The message of the error Node throws when the guard file may not be
    opened for writing, for an installation under /opt. *)
Definition eacces_message : string :=
  "EACCES: permission denied, open '/opt/sync-autoreboot/last_reboot.txt'".


(** A clock that starts at [start] and advances by one millisecond from
    one reading to the next. *)
Definition ticking_clock (start : Z) : nat -> Z :=
  fun n => start + Z.of_nat n.

(** ** Proof support *)

(** Unfolds the monad and the primitives, leaving the tests of the source
    to case analysis. *)
Ltac js_unfold :=
  cbv beta iota zeta delta
    [bind ret raise catch Monad_JS MonadExc_JS
     JS_bind JS_ret JS_throw JS_catch get modify emit Date_now log
     readFileSync writeFileSync await getTime_of_timestamp
     completion world emitted app
     set_alarm set_timestamp_alarm set_guard_file set_reads set_in_flight
     alarm timestamp_alarm guard_file guard_writable clock reads in_flight
     guard_write_failure next_reading message].

(** Unfolds the source function [f] first. *)
Ltac js_step f := unfold f; js_unfold.

(** *** [setAlarm] *)

Lemma setAlarm_arms (T : Z) (w : World) :
  alarm w = false ->
  setAlarm T true w =
  mkOutcome (Normal tt)
    (mkWorld true (next_reading w + T) (guard_file w) (guard_writable w)
             (clock w) (S (S (reads w))) (in_flight w) (guard_write_failure w))
    [Log (clock w (S (reads w))) AlarmTimerActivated].
Proof.
  destruct w as [a t f g c n k m]; simpl; intros ->.
  js_step setAlarm. reflexivity.
Qed.

Lemma setAlarm_disarms (T : Z) (w : World) :
  alarm w = true ->
  setAlarm T false w =
  mkOutcome (Normal tt)
    (mkWorld false 0 (guard_file w) (guard_writable w)
             (clock w) (S (reads w)) (in_flight w) (guard_write_failure w))
    [Log (next_reading w) AlarmDeactivated].
Proof.
  destruct w as [a t f g c n k m]; simpl; intros ->.
  js_step setAlarm. reflexivity.
Qed.

Lemma setAlarm_same (T : Z) (state : bool) (w : World) :
  alarm w = state ->
  setAlarm T state w = mkOutcome (Normal tt) w [].
Proof.
  destruct w as [a t f g c n k m]; simpl; intros ->.
  js_step setAlarm. destruct state; reflexivity.
Qed.

Lemma setAlarm_completes (T : Z) (state : bool) (w : World) :
  completion (setAlarm T state w) = Normal tt.
Proof.
  destruct state, (alarm w) eqn:E.
  - rewrite setAlarm_same by assumption. reflexivity.
  - rewrite setAlarm_arms by assumption. reflexivity.
  - rewrite setAlarm_disarms by assumption. reflexivity.
  - rewrite setAlarm_same by assumption. reflexivity.
Qed.

Lemma setAlarm_alarm (T : Z) (state : bool) (w : World) :
  alarm (world (setAlarm T state w)) = state.
Proof.
  destruct state, (alarm w) eqn:E.
  - rewrite setAlarm_same by assumption. assumption.
  - rewrite setAlarm_arms by assumption. reflexivity.
  - rewrite setAlarm_disarms by assumption. reflexivity.
  - rewrite setAlarm_same by assumption. assumption.
Qed.

(** [setAlarm] touches the two alarm variables and the clock only. *)
Lemma setAlarm_frame (T : Z) (state : bool) (w : World) :
  let w' := world (setAlarm T state w) in
  guard_file w' = guard_file w /\ guard_writable w' = guard_writable w /\
  clock w' = clock w /\ in_flight w' = in_flight w /\
  forallb is_log (emitted (setAlarm T state w)) = true.
Proof.
  destruct state, (alarm w) eqn:E; cbv zeta.
  - rewrite setAlarm_same by assumption. simpl. auto.
  - rewrite setAlarm_arms by assumption. simpl. auto.
  - rewrite setAlarm_disarms by assumption. simpl. auto.
  - rewrite setAlarm_same by assumption. simpl. auto.
Qed.

(** *** [checkTimestamp] after the [await] *)

(** Handling a sample is one log line followed by [setAlarm] on the class
    of the sample; [k] counts the clock readings taken before [setAlarm]. *)
Lemma checkTimestamp_resume_setAlarm (A T : Z) (r : Response) (w : World) :
  exists k ts msg,
    let o := setAlarm T (out_of_sync_at A r w) (set_reads (k + reads w) w) in
    checkTimestamp_resume A T r w =
    mkOutcome (completion o) (world o) (Log ts msg :: emitted o).
Proof.
  destruct r as [reason | [ | t]].
  - exists 1%nat, (next_reading w), (ErrorGettingTimestamp reason).
    js_step checkTimestamp_resume. cbn [Nat.add out_of_sync_at].
    destruct (setAlarm T true _); reflexivity.
  - exists 1%nat, (next_reading w),
      (ErrorGettingTimestamp "Cannot read properties of undefined (reading 'timestamp')").
    js_step checkTimestamp_resume. cbn [Nat.add out_of_sync_at].
    destruct (setAlarm T true _); reflexivity.
  - destruct w as [a d f g c n i m].
    unfold out_of_sync_at, next_reading. cbn [clock reads].
    destruct (number_gt _ _) eqn:E.
    + exists 2%nat, (c (S n)),
        (TimestampOutOfSync (Math_abs (number_sub (Num (c n)) t))).
      destruct a; unfold checkTimestamp_resume, setAlarm; js_unfold;
        rewrite E; reflexivity.
    + exists 2%nat, (c (S n)),
        (TimestampOK (Math_abs (number_sub (Num (c n)) t))).
      destruct a; unfold checkTimestamp_resume, setAlarm; js_unfold;
        rewrite E; reflexivity.
Qed.

Lemma checkTimestamp_resume_alarm (A T : Z) (r : Response) (w : World) :
  alarm (world (checkTimestamp_resume A T r w)) = out_of_sync_at A r w.
Proof.
  destruct (checkTimestamp_resume_setAlarm A T r w) as (k & ts & msg & H).
  cbv zeta in H. rewrite H. cbn [world]. apply setAlarm_alarm.
Qed.

Lemma checkTimestamp_resume_completes (A T : Z) (r : Response) (w : World) :
  completion (checkTimestamp_resume A T r w) = Normal tt.
Proof.
  destruct (checkTimestamp_resume_setAlarm A T r w) as (k & ts & msg & H).
  cbv zeta in H. rewrite H. cbn [completion]. apply setAlarm_completes.
Qed.

Lemma checkTimestamp_resume_frame (A T : Z) (r : Response) (w : World) :
  let o := checkTimestamp_resume A T r w in
  guard_file (world o) = guard_file w /\
  guard_writable (world o) = guard_writable w /\
  clock (world o) = clock w /\ in_flight (world o) = in_flight w /\
  forallb is_log (emitted o) = true.
Proof.
  destruct (checkTimestamp_resume_setAlarm A T r w) as (k & ts & msg & H).
  cbv zeta in H |- *. rewrite H. cbn [world emitted forallb is_log andb].
  destruct (setAlarm_frame T (out_of_sync_at A r w) (set_reads (k + reads w) w))
    as (F1 & F2 & F3 & F4 & F5).
  auto.
Qed.

(** While the alarm is set, an out-of-sync sample leaves both variables. *)
Lemma checkTimestamp_resume_stays_armed (A T : Z) (r : Response) (w : World) :
  alarm w = true ->
  out_of_sync_at A r w = true ->
  alarm (world (checkTimestamp_resume A T r w)) = true /\
  timestamp_alarm (world (checkTimestamp_resume A T r w)) = timestamp_alarm w.
Proof.
  intros Ha Ho.
  destruct (checkTimestamp_resume_setAlarm A T r w) as (k & ts & msg & H).
  cbv zeta in H. rewrite H, Ho. cbn [world].
  rewrite setAlarm_same by (destruct w; exact Ha).
  destruct w; simpl in *; auto.
Qed.

(** ** The alarm state machine *)

(** C5. [setAlarm] is the transition function of the specification: from
    Clear an out-of-sync sample arms the alarm with [raisedAt] the clock
    reading of that call; from Armed an in-sync sample clears it whatever
    [raisedAt] was; from Armed an out-of-sync sample keeps [raisedAt];
    from Clear an in-sync sample stays Clear. *)
Theorem setAlarm_refines_transition (T : Z) (sample : Sample) (w : World) :
  alarm_state T (world (setAlarm T (alarm_argument sample) w)) =
  spec_alarm_transition (alarm_state T w) sample (next_reading w).
Proof.
  unfold alarm_state.
  destruct sample, (alarm w) eqn:E; cbn [alarm_argument].
  - rewrite setAlarm_disarms by assumption. reflexivity.
  - rewrite setAlarm_same by assumption. cbn [world]. rewrite E. reflexivity.
  - rewrite setAlarm_same by assumption. cbn [world]. rewrite E. reflexivity.
  - rewrite setAlarm_arms by assumption. cbn [world alarm timestamp_alarm].
    cbn [spec_alarm_transition]. f_equal. lia.
Qed.

Lemma alarm_matured_armed (w : World) :
  alarm w = true ->
  alarm_matured w =
  mkOutcome (Normal (timestamp_alarm w <=? next_reading w))
            (set_reads (S (reads w)) w) [].
Proof.
  destruct w as [a d f g c n i m]; simpl; intros ->. reflexivity.
Qed.

Lemma alarm_matured_clear (w : World) :
  alarm w = false ->
  alarm_matured w = mkOutcome (Normal false) w [].
Proof.
  destruct w as [a d f g c n i m]; simpl; intros ->. reflexivity.
Qed.

(** ** Classifying a sample *)

(** C7. With [diff = |localTime - referenceTime|], a sample whose time
    stamp is a valid instant is taken as in sync when
    [diff <= ALLOWED_DIFFERENCE] (the bound included) and as out of sync
    when [diff > ALLOWED_DIFFERENCE]; the class is the argument given to
    [setAlarm]. Classifying depends on nothing but the three values:
    beside the log line and the alarm update it feeds, the job leaves the
    guard file alone and issues no request and no command. *)
Theorem drift_classification (A T : Z) (referenceTime : Z) (w : World) :
  let localTime := next_reading w in
  let diff := Z.abs (localTime - referenceTime) in
  let o := checkTimestamp_resume A T (Fulfilled (Timestamp (Num referenceTime))) w in
  (diff <= A ->
   alarm (world o) = false /\
   hd_error (emitted o) = Some (Log (clock w (S (reads w))) (TimestampOK (Num diff)))) /\
  (A < diff ->
   alarm (world o) = true /\
   hd_error (emitted o) =
     Some (Log (clock w (S (reads w))) (TimestampOutOfSync (Num diff)))) /\
  completion o = Normal tt /\
  guard_file (world o) = guard_file w /\
  guard_writable (world o) = guard_writable w /\
  in_flight (world o) = in_flight w /\
  forallb is_log (emitted o) = true.
Proof.
  cbv zeta.
  pose proof (checkTimestamp_resume_frame A T
                (Fulfilled (Timestamp (Num referenceTime))) w) as F.
  cbv zeta in F. destruct F as (F1 & F2 & _ & F4 & F5).
  split; [ | split; [ | repeat split; auto using checkTimestamp_resume_completes]].
  - intros Hle. split.
    + rewrite checkTimestamp_resume_alarm. cbn [out_of_sync_at number_sub Math_abs number_gt].
      apply Z.ltb_ge. exact Hle.
    + destruct w as [a d f g c n i m]. unfold next_reading in *. cbn [clock reads] in *.
      apply Z.ltb_ge in Hle.
      destruct a; unfold checkTimestamp_resume, setAlarm; js_unfold;
        cbn [number_sub Math_abs number_gt]; rewrite Hle; reflexivity.
  - intros Hlt. split.
    + rewrite checkTimestamp_resume_alarm. cbn [out_of_sync_at number_sub Math_abs number_gt].
      apply Z.ltb_lt. exact Hlt.
    + destruct w as [a d f g c n i m]. unfold next_reading in *. cbn [clock reads] in *.
      apply Z.ltb_lt in Hlt.
      destruct a; unfold checkTimestamp_resume, setAlarm; js_unfold;
        cbn [number_sub Math_abs number_gt]; rewrite Hlt; reflexivity.
Qed.

(** With five minutes allowed, a reference exactly five minutes ahead is
    in sync and one millisecond more is out of sync. *)
Lemma drift_classification_witness :
  let w := mkWorld true 5000 None true (ticking_clock 1000000) 0 1 eacces_message in
  alarm (world (checkTimestamp_resume 300000 180000
                  (Fulfilled (Timestamp (Num 1300000))) w)) = false /\
  alarm (world (checkTimestamp_resume 300000 180000
                  (Fulfilled (Timestamp (Num 1300001))) (set_alarm false w))) = true.
Proof.
  intros w.
  pose proof (drift_classification 300000 180000 1300000 w) as Hin.
  pose proof (drift_classification 300000 180000 1300001 (set_alarm false w)) as Hout.
  cbv zeta in Hin, Hout.
  destruct Hin as (Hin & _). destruct Hout as (_ & Hout & _).
  split.
  - apply Hin. vm_compute. discriminate.
  - apply Hout. vm_compute. reflexivity.
Defined.

(** C1 (what the source does). A response whose time stamp is not a valid
    instant makes [getTime()] return [NaN]; [diff] is [NaN], the test
    [diff > ALLOWED_DIFFERENCE] is false, and the sample goes down the
    in-sync branch: "Timestamp OK (NaN ms)" is logged and the alarm is
    cleared. *)
Theorem invalid_timestamp_taken_as_in_sync (A T : Z) (w : World) :
  let o := checkTimestamp_resume A T (Fulfilled (Timestamp NaN)) w in
  out_of_sync_at A (Fulfilled (Timestamp NaN)) w = false /\
  alarm (world o) = false /\
  hd_error (emitted o) = Some (Log (clock w (S (reads w))) (TimestampOK NaN)).
Proof.
  cbv zeta. split; [reflexivity | split].
  - rewrite checkTimestamp_resume_alarm. reflexivity.
  - destruct w as [[] d f g c n i m]; reflexivity.
Qed.

(** The failures that reach the [catch] are taken as out of sync. *)
Lemma failed_request_taken_as_out_of_sync (A T : Z) (w : World) (reason : string) :
  alarm (world (checkTimestamp_resume A T (Rejected reason) w)) = true /\
  alarm (world (checkTimestamp_resume A T (Fulfilled NoData) w)) = true.
Proof.
  split; rewrite checkTimestamp_resume_alarm; reflexivity.
Qed.

(** ** The reboot guard *)

Lemma getLastRebootTimestamp_value (w : World) :
  getLastRebootTimestamp w = mkOutcome (Normal (recorded_last w)) w [].
Proof.
  unfold recorded_last.
  destruct w as [a d [data | ] g c n i m]; reflexivity.
Qed.

Lemma recorded_last_reads (k : nat) (w : World) :
  recorded_last (set_reads k w) = recorded_last w.
Proof.
  destruct w as [a d [data | ] g c n i m]; reflexivity.
Qed.

Lemma recorded_last_unreadable (w : World) :
  guard_file w = None -> recorded_last w = 0.
Proof.
  destruct w as [a d f g c n i m]; simpl; intros ->. reflexivity.
Qed.

Lemma recorded_last_readable (w : World) (data : string) :
  guard_file w = Some data ->
  recorded_last w = or_zero (parseInt (trim (utf8_decode data))).
Proof.
  destruct w as [a d f g c n i m]; simpl; intros ->. reflexivity.
Qed.

(** *** The text of the record *)

Local Open Scope list_scope.

Lemma utf8_continue_ascii (bs : list N) :
  forallb (fun b => (b <=? 127)%N) bs = true ->
  utf8_continue bs 0 0 128 191 = bs.
Proof.
  induction bs as [ | b bs IH]; [reflexivity | ].
  cbn [forallb]. intros H. apply andb_true_iff in H as [Hb Hbs].
  cbn [utf8_continue]. unfold utf8_lead. rewrite Hb, (IH Hbs). reflexivity.
Qed.

Lemma string_of_uint_ascii (d : Decimal.uint) :
  forallb (fun b => (b <=? 127)%N) (bytes_of (NilEmpty.string_of_uint d)) = true.
Proof.
  unfold bytes_of.
  induction d; cbn [NilEmpty.string_of_uint list_ascii_of_string map forallb];
    try reflexivity; rewrite IHd; reflexivity.
Qed.

Lemma toString_ascii (n : Z) :
  forallb (fun b => (b <=? 127)%N) (bytes_of (toString n)) = true.
Proof.
  unfold toString.
  destruct n as [ | p | p]; [reflexivity | | ];
    cbn [Z.to_int NilZero.string_of_int]; unfold NilZero.string_of_uint.
  - destruct (Pos.to_uint p) eqn:E; try reflexivity; rewrite <- E;
      apply string_of_uint_ascii.
  - change (bytes_of (String "-" ?s)) with (45%N :: bytes_of s).
    destruct (Pos.to_uint p) eqn:E; try reflexivity; rewrite <- E;
      cbn [forallb]; rewrite string_of_uint_ascii; reflexivity.
Qed.

Lemma utf8_decode_toString (n : Z) :
  utf8_decode (toString n) = bytes_of (toString n).
Proof. apply utf8_continue_ascii, toString_ascii. Qed.

Lemma white_space_not_digit (c : N) :
  is_white_space c = true -> digit_value c = None.
Proof.
  unfold is_white_space, digit_value. intros H.
  destruct ((48 <=? c)%N && (c <=? 57)%N) eqn:E; [ | reflexivity].
  exfalso. apply andb_true_iff in E as [E1 E2].
  apply N.leb_le in E1, E2.
  apply orb_true_iff in H as [H | H].
  - cbn [existsb] in H.
    repeat (apply orb_true_iff in H as [H | H];
            [apply N.eqb_eq in H; subst c; lia | ]).
    discriminate H.
  - apply andb_true_iff in H as [H1 H2]. apply N.leb_le in H1. lia.
Qed.

Lemma parse_digits_stops (rest : list N) (acc : option Z) :
  stops_digits rest -> parse_digits rest acc = acc.
Proof.
  destruct rest as [ | c rest]; [reflexivity | ].
  cbn [stops_digits parse_digits]. intros ->. reflexivity.
Qed.

Lemma parse_digits_before_stop (s rest : list N) :
  stops_digits rest ->
  forall acc, parse_digits (s ++ rest) acc = parse_digits s acc.
Proof.
  intros Hstop.
  induction s as [ | c s IH]; intros acc.
  - apply parse_digits_stops. exact Hstop.
  - cbn [app parse_digits]. destruct (digit_value c); [apply IH | reflexivity].
Qed.

Lemma white_stops_digits (ws : list N) : white ws -> stops_digits ws.
Proof.
  destruct ws as [ | c ws]; [exact (fun _ => I) | ].
  unfold white. cbn [forallb stops_digits]. intros H.
  apply andb_true_iff in H as [H _]. apply white_space_not_digit. exact H.
Qed.

Lemma trim_start_white (ws : list N) :
  white ws -> forall x, trim_start (ws ++ x) = trim_start x.
Proof.
  unfold white.
  induction ws as [ | c ws IH]; intros H x; [reflexivity | ].
  cbn [forallb] in H. apply andb_true_iff in H as [Hc Hws].
  cbn [app trim_start]. rewrite Hc. apply IH. exact Hws.
Qed.

Lemma trim_start_all_white (ws : list N) : white ws -> trim_start ws = [].
Proof.
  intros H. rewrite <- (app_nil_r ws). rewrite (trim_start_white ws H).
  reflexivity.
Qed.

Lemma trim_start_idempotent (s : list N) :
  trim_start (trim_start s) = trim_start s.
Proof.
  induction s as [ | c s IH]; [reflexivity | ].
  cbn [trim_start]. destruct (is_white_space c) eqn:E; [exact IH | ].
  cbn [trim_start]. rewrite E. reflexivity.
Qed.

Lemma trim_start_split (u : list N) :
  exists ws, white ws /\ u = ws ++ trim_start u.
Proof.
  induction u as [ | c u (ws & Hws & Hu)].
  - exists []. split; reflexivity.
  - cbn [trim_start]. destruct (is_white_space c) eqn:E.
    + exists (c :: ws). split.
      * unfold white in *. cbn [forallb]. rewrite E, Hws. reflexivity.
      * cbn [app]. rewrite <- Hu. reflexivity.
    + exists []. split; reflexivity.
Qed.

Lemma trim_start_white_tail (ws : list N) :
  white ws ->
  forall x,
    (trim_start (x ++ ws) = trim_start x ++ ws /\ trim_start x <> []) \/
    (trim_start (x ++ ws) = [] /\ trim_start x = []).
Proof.
  intros Hws.
  induction x as [ | c x IH].
  - right. split; [apply trim_start_all_white; exact Hws | reflexivity].
  - cbn [app trim_start]. destruct (is_white_space c) eqn:E; [exact IH | ].
    left. split; [reflexivity | discriminate].
Qed.

Lemma parseInt_white_tail (x ws : list N) :
  white ws -> parseInt (x ++ ws) = parseInt x.
Proof.
  intros Hws. unfold parseInt.
  destruct (trim_start_white_tail ws Hws x) as [[E Hne] | [E E']].
  - rewrite E. destruct (trim_start x) as [ | c r]; [contradiction Hne; reflexivity | ].
    cbn [app].
    pose proof (parse_digits_before_stop r ws (white_stops_digits ws Hws) None) as Hr.
    pose proof (parse_digits_before_stop (c :: r) ws
                  (white_stops_digits ws Hws) None) as Hcr.
    cbn [app] in Hcr.
    destruct (c =? 45)%N; [rewrite Hr; reflexivity | ].
    destruct (c =? 43)%N; [rewrite Hr; reflexivity | ].
    rewrite Hcr. reflexivity.
  - rewrite E, E'. reflexivity.
Qed.

Lemma rev_white (ws : list N) : white ws -> white (rev ws).
Proof.
  unfold white. rewrite !forallb_forall. intros H c Hc.
  apply H. apply in_rev. exact Hc.
Qed.

Lemma trim_drops_white_tail (s : list N) :
  exists ws, white ws /\ trim_start s = trim s ++ ws.
Proof.
  unfold trim.
  destruct (trim_start_split (rev (trim_start s))) as (ws & Hws & Hu).
  exists (rev ws). split; [apply rev_white; exact Hws | ].
  rewrite <- rev_app_distr, <- Hu. symmetry. apply rev_involutive.
Qed.

Lemma parseInt_trim (s : list N) : parseInt (trim s) = parseInt s.
Proof.
  destruct (trim_drops_white_tail s) as (ws & Hws & E).
  rewrite <- (parseInt_white_tail (trim s) ws Hws), <- E.
  unfold parseInt. rewrite trim_start_idempotent. reflexivity.
Qed.

Ltac known_digit :=
  match goal with
  | |- context [digit_value ?c] =>
      let v := eval vm_compute in (digit_value c) in
      change (digit_value c) with v; cbv beta iota
  end.

Lemma parse_digits_acc (d : Decimal.uint) :
  forall acc : positive,
    parse_digits (bytes_of (NilEmpty.string_of_uint d)) (Some (Z.pos acc)) =
    Some (Z.pos (Pos.of_uint_acc d acc)).
Proof.
  unfold bytes_of.
  induction d; intros acc;
    cbn [NilEmpty.string_of_uint list_ascii_of_string map parse_digits
         Pos.of_uint_acc];
    try reflexivity;
    known_digit;
    match goal with
    | IH : forall acc, _ = _
      |- parse_digits _ (Some ?z) = Some (Z.pos (Pos.of_uint_acc _ ?a)) =>
        replace z with (Z.pos a) by lia; apply IH
    end.
Qed.

Lemma parse_digits_of_uint (d : Decimal.uint) :
  d <> Decimal.Nil ->
  forall acc,
    acc = None \/ acc = Some 0 ->
    parse_digits (bytes_of (NilEmpty.string_of_uint d)) acc =
    Some (Z.of_N (Pos.of_uint d)).
Proof.
  induction d; intros Hd acc [-> | ->];
    try (contradiction Hd; reflexivity);
    unfold bytes_of in *;
    cbn [NilEmpty.string_of_uint list_ascii_of_string map parse_digits
         Pos.of_uint];
    known_digit; simpl (10 * _ + _);
    try apply parse_digits_acc;
    (destruct d; [reflexivity | apply IHd; [discriminate | right; reflexivity] ..]).
Qed.

Lemma string_of_uint_head (d : Decimal.uint) :
  d <> Decimal.Nil ->
  exists c r,
    bytes_of (NilEmpty.string_of_uint d) = c :: r /\
    is_white_space c = false /\
    (c =? 45)%N = false /\ (c =? 43)%N = false.
Proof.
  intros Hd.
  destruct d; try (contradiction Hd; reflexivity);
    unfold bytes_of; cbn [NilEmpty.string_of_uint list_ascii_of_string map];
    eexists; eexists; (split; [reflexivity | ]); repeat split; reflexivity.
Qed.

Lemma parseInt_uint_then_text (d : Decimal.uint) (rest : list N) :
  d <> Decimal.Nil ->
  stops_digits rest ->
  parseInt (bytes_of (NilEmpty.string_of_uint d) ++ rest) =
  Num (Z.of_N (Pos.of_uint d)).
Proof.
  intros Hd Hstop.
  pose proof (parse_digits_before_stop (bytes_of (NilEmpty.string_of_uint d))
                rest Hstop None) as Hp.
  rewrite (parse_digits_of_uint d Hd None (or_introl eq_refl)) in Hp.
  unfold parseInt.
  destruct (string_of_uint_head d Hd) as (c & r & E & Hc & Hm & Hpl).
  rewrite E in Hp |- *. cbn [app] in Hp |- *.
  cbn [trim_start]. rewrite Hc, Hm, Hpl, Hp. reflexivity.
Qed.

Lemma toString_positive (p : positive) :
  toString (Z.pos p) = NilEmpty.string_of_uint (Pos.to_uint p) /\
  toString (Z.neg p) = String "-" (NilEmpty.string_of_uint (Pos.to_uint p)).
Proof.
  unfold toString. cbn [Z.to_int NilZero.string_of_int].
  pose proof (DecimalPos.Unsigned.to_uint_nonnil p) as Hnil.
  unfold NilZero.string_of_uint.
  destruct (Pos.to_uint p); try (split; reflexivity).
  contradiction Hnil. reflexivity.
Qed.

Lemma parseInt_number_then_text (n : Z) (rest : list N) :
  stops_digits rest ->
  parseInt (bytes_of (toString n) ++ rest) = Num n.
Proof.
  intros Hstop.
  destruct n as [ | p | p].
  - change (toString 0) with (NilEmpty.string_of_uint (Decimal.D0 Decimal.Nil)).
    rewrite parseInt_uint_then_text by (try discriminate; exact Hstop).
    reflexivity.
  - destruct (toString_positive p) as [-> _].
    rewrite (parseInt_uint_then_text _ rest
               (DecimalPos.Unsigned.to_uint_nonnil p) Hstop).
    rewrite DecimalPos.Unsigned.of_to. reflexivity.
  - destruct (toString_positive p) as [_ ->].
    change (bytes_of (String "-" ?s)) with (45%N :: bytes_of s).
    unfold parseInt. cbn [app].
    assert (Ht : forall x, trim_start (45%N :: x) = 45%N :: x)
      by (intros x; reflexivity).
    rewrite Ht. cbn [N.eqb Pos.eqb].
    rewrite (parse_digits_before_stop _ rest Hstop).
    rewrite (parse_digits_of_uint _ (DecimalPos.Unsigned.to_uint_nonnil p) None
               (or_introl eq_refl)).
    rewrite DecimalPos.Unsigned.of_to. reflexivity.
Qed.

(** [parseInt(n.toString().trim(), 10)] is [n]. *)
Lemma parseInt_toString (n : Z) :
  parseInt (trim (utf8_decode (toString n))) = Num n.
Proof.
  rewrite parseInt_trim, utf8_decode_toString.
  rewrite <- (app_nil_r (bytes_of (toString n))).
  apply parseInt_number_then_text. exact I.
Qed.

Section Guard.

Variables (env platform : string) (MIN : Z).


(** The three ways through [restartSystem]. *)
Lemma restartSystem_paths (w : World) :
  restartSystem env platform MIN w =
  if next_reading w - recorded_last w <? MIN then
    mkOutcome (Normal tt) (set_reads (S (S (reads w))) w)
              [Log (clock w (S (reads w))) RestartSkipped]
  else if guard_writable w then
    mkOutcome (Normal tt)
      (mkWorld (alarm w) (timestamp_alarm w)
               (Some (toString (clock w (S (reads w))))) true
               (clock w) (S (S (S (reads w)))) (in_flight w)
               (guard_write_failure w))
      [WriteFile (toString (clock w (S (reads w))));
       Log (clock w (S (S (reads w)))) RestartingSystem;
       Exec (restart_command env platform)]
  else
    mkOutcome (Normal tt)
      (set_reads (S (S (S (S (reads w))))) w)
      [WriteFile (toString (clock w (S (reads w))));
       Log (clock w (S (S (reads w))))
           (ErrorWritingRebootFile (guard_write_failure w));
       Log (clock w (S (S (S (reads w))))) RestartingSystem;
       Exec (restart_command env platform)].
Proof.
  destruct w as [a d [data | ] [ | ] c n i m];
    unfold restartSystem, recorded_last,
           getLastRebootTimestamp, setLastRebootTimestamp;
    js_unfold;
    match goal with |- context [?x <? MIN] => destruct (x <? MIN) end;
    reflexivity.
Qed.

(** Inside the protection interval: one log line, nothing else. *)
Lemma restartSystem_skips (w : World) :
  next_reading w - recorded_last w < MIN ->
  restartSystem env platform MIN w =
  mkOutcome (Normal tt) (set_reads (S (S (reads w))) w)
            [Log (clock w (S (reads w))) RestartSkipped].
Proof.
  intros H. apply Z.ltb_lt in H.
  rewrite restartSystem_paths, H. reflexivity.
Qed.

(** Outside it, with a record that can be written. *)
Lemma restartSystem_reboots_recorded (w : World) :
  MIN <= next_reading w - recorded_last w ->
  guard_writable w = true ->
  restartSystem env platform MIN w =
  mkOutcome (Normal tt)
    (mkWorld (alarm w) (timestamp_alarm w)
             (Some (toString (clock w (S (reads w))))) true
             (clock w) (S (S (S (reads w)))) (in_flight w)
             (guard_write_failure w))
    [WriteFile (toString (clock w (S (reads w))));
     Log (clock w (S (S (reads w)))) RestartingSystem;
     Exec (restart_command env platform)].
Proof.
  intros H Hw. apply Z.ltb_ge in H.
  rewrite restartSystem_paths, H, Hw. reflexivity.
Qed.

(** Outside it, with a record that cannot be written: the error is
    logged and the command is issued all the same. *)
Lemma restartSystem_reboots_unrecorded (w : World) :
  MIN <= next_reading w - recorded_last w ->
  guard_writable w = false ->
  restartSystem env platform MIN w =
  mkOutcome (Normal tt)
    (set_reads (S (S (S (S (reads w))))) w)
    [WriteFile (toString (clock w (S (reads w))));
     Log (clock w (S (S (reads w))))
         (ErrorWritingRebootFile (guard_write_failure w));
     Log (clock w (S (S (S (reads w))))) RestartingSystem;
     Exec (restart_command env platform)].
Proof.
  intros H Hw. apply Z.ltb_ge in H.
  rewrite restartSystem_paths, H, Hw. reflexivity.
Qed.

Lemma restartSystem_completes (w : World) :
  completion (restartSystem env platform MIN w) = Normal tt.
Proof.
  rewrite restartSystem_paths.
  destruct (_ <? _), (guard_writable w); reflexivity.
Qed.

(** [restartSystem] leaves the alarm, the clock and the requests alone. *)
Lemma restartSystem_frame (w : World) :
  alarm (world (restartSystem env platform MIN w)) = alarm w /\
  timestamp_alarm (world (restartSystem env platform MIN w)) = timestamp_alarm w /\
  clock (world (restartSystem env platform MIN w)) = clock w /\
  in_flight (world (restartSystem env platform MIN w)) = in_flight w.
Proof.
  rewrite restartSystem_paths.
  destruct (_ <? _), (guard_writable w); destruct w; cbn; auto.
Qed.

Lemma reboot_issued_iff (w : World) :
  reboot_issued (restartSystem env platform MIN w) = true <->
  MIN <= next_reading w - recorded_last w.
Proof.
  rewrite restartSystem_paths. unfold reboot_issued.
  destruct (_ <? _) eqn:E.
  - apply Z.ltb_lt in E. cbn. split; [discriminate | lia].
  - apply Z.ltb_ge in E. destruct (guard_writable w); cbn; tauto.
Qed.

(** A reboot whose record was written is read back at the next check. *)
Lemma recorded_reboot_read_back (w : World) :
  MIN <= next_reading w - recorded_last w ->
  guard_writable w = true ->
  recorded_last (world (restartSystem env platform MIN w)) =
  clock w (S (reads w)).
Proof.
  intros Hp Hw.
  rewrite (restartSystem_reboots_recorded w Hp Hw). cbn [world].
  rewrite (recorded_last_readable _ (toString (clock w (S (reads w)))))
    by reflexivity.
  rewrite parseInt_toString. reflexivity.
Qed.

(** The cooldown: once a reboot was recorded at [t], a later check of a
    process that finds this record denies the reboot while
    [now - t < MIN_REBOOT_INTERVAL]. *)
Lemma cooldown_after_recorded_reboot (w w' : World) :
  MIN <= next_reading w - recorded_last w ->
  guard_writable w = true ->
  guard_file w' = guard_file (world (restartSystem env platform MIN w)) ->
  next_reading w' - clock w (S (reads w)) < MIN ->
  reboot_issued (restartSystem env platform MIN w') = false.
Proof.
  intros Hp Hw Hfile Hin.
  apply not_true_is_false. intros Hissued.
  apply reboot_issued_iff in Hissued.
  assert (Hlast : recorded_last w' = clock w (S (reads w))).
  { rewrite (restartSystem_reboots_recorded w Hp Hw) in Hfile.
    cbn [world guard_file] in Hfile.
    rewrite (recorded_last_readable w' _ Hfile).
    rewrite parseInt_toString. reflexivity. }
  lia.
Qed.

End Guard.

(** C4 (as stated, refuted). With no record at all and a clock that
    shows ten minutes past the epoch, the guard of a thirty-minute
    interval denies the reboot: the missing record is read as the
    instant 0, and [now - 0] is inside the interval. *)
Lemma guard_denies_without_record :
  let w := initial_world None true (ticking_clock 600000) eacces_message in
  guard_file w = None /\
  ~ (reboot_issued (restartSystem "production" "linux" 1800000 w) = true <->
     (1800000 <= next_reading w - recorded_last w \/ guard_file w = None)).
Proof.
  cbv zeta. split; [reflexivity | ].
  intros [_ H].
  assert (E : reboot_issued
                (restartSystem "production" "linux" 1800000
                   (initial_world None true (ticking_clock 600000) eacces_message)) = false)
    by (vm_compute; reflexivity).
  rewrite E in H. discriminate H. right. reflexivity.
Qed.

(** C4 (amended). The reboot command is issued if and only if
    [now - last >= MIN_REBOOT_INTERVAL], where [last] is what
    [getLastRebootTimestamp] returns: the recorded instant, and 0 when the
    record cannot be read. The guard denies strictly inside the interval
    and permits again exactly at [now - last = MIN_REBOOT_INTERVAL]. *)
Theorem guard_permits_iff_interval_elapsed
    (env platform : string) (MIN : Z) (w : World) :
  let now := next_reading w in
  let last := recorded_last w in
  let o := restartSystem env platform MIN w in
  (reboot_issued o = true <-> MIN <= now - last) /\
  (now - last < MIN -> reboot_issued o = false) /\
  (now - last = MIN -> reboot_issued o = true) /\
  (guard_file w = None -> last = 0).
Proof.
  cbv zeta.
  pose proof (reboot_issued_iff env platform MIN w) as Hiff.
  repeat split.
  - apply Hiff.
  - apply Hiff.
  - intros Hlt. apply not_true_is_false. intros E.
    apply Hiff in E. lia.
  - intros Heq. apply Hiff. lia.
  - apply recorded_last_unreadable.
Qed.

(** A record of 1000000 and an interval of 1800 s: one millisecond before
    the boundary the reboot is denied, at the boundary it is issued. *)
Lemma guard_permits_iff_interval_elapsed_witness :
  let w t := mkWorld true 0 (Some "1000000") true (ticking_clock t) 0 0 eacces_message in
  reboot_issued (restartSystem "production" "linux" 1800000 (w 2799999)) = false /\
  reboot_issued (restartSystem "production" "linux" 1800000 (w 2800000)) = true /\
  recorded_last (initial_world None true (ticking_clock 0) eacces_message) = 0.
Proof.
  intros w.
  pose proof (guard_permits_iff_interval_elapsed
                "production" "linux" 1800000 (w 2799999)) as H0.
  pose proof (guard_permits_iff_interval_elapsed
                "production" "linux" 1800000 (w 2800000)) as H1.
  pose proof (guard_permits_iff_interval_elapsed
                "production" "linux" 1800000
                (initial_world None true (ticking_clock 0) eacces_message)) as H2.
  cbv zeta in H0, H1, H2.
  destruct H0 as (_ & H0 & _). destruct H1 as (_ & _ & H1 & _).
  destruct H2 as (_ & _ & _ & H2).
  split; [ | split].
  - apply H0. vm_compute. reflexivity.
  - apply H1. vm_compute. reflexivity.
  - apply H2. reflexivity.
Defined.

(** C3. On every path of [restartSystem] that issues the reboot command,
    the call that writes the record comes first, with the clock reading
    taken for it, and the command is the last effect; when the write
    succeeds the record holds that reading by the time the command is
    issued. *)
Theorem record_written_before_reboot
    (env platform : string) (MIN : Z) (w : World)
    (before after : list Effect) (cmd : string) :
  emitted (restartSystem env platform MIN w) = (before ++ Exec cmd :: after)%list ->
  let written := toString (clock w (S (reads w))) in
  (exists rest, before = WriteFile written :: rest) /\
  after = [] /\
  (guard_writable w = true ->
   guard_file (world (restartSystem env platform MIN w)) = Some written).
Proof.
  rewrite restartSystem_paths.
  destruct (_ <? _); [ | destruct (guard_writable w)]; cbn [emitted world guard_file].
  - intros H. destruct before as [ | e [ | e' before]]; cbn in H; discriminate.
  - intros H.
    destruct before as [ | e1 [ | e2 [ | e3 before]]]; cbn in H; try discriminate.
    + injection H as H1 H2 H3 H4. subst.
      cbv zeta. split; [eexists; reflexivity | split; [reflexivity | reflexivity]].
    + injection H as _ _ _ H. destruct before; discriminate.
  - intros H.
    destruct before as [ | e1 [ | e2 [ | e3 [ | e4 before]]]]; cbn in H;
      try discriminate.
    + injection H as H1 H2 H3 H4 H5. subst.
      cbv zeta. split; [eexists; reflexivity | split; [reflexivity | discriminate]].
    + injection H as _ _ _ _ H. destruct before; discriminate.
Qed.

(** The first reboot of a machine without a record: the record is written
    with the reading 1700000000001, then the command is issued. *)
Lemma record_written_before_reboot_witness :
  let w := initial_world None true (ticking_clock 1700000000000) eacces_message in
  emitted (restartSystem "production" "linux" 1800000 w) =
    ([WriteFile "1700000000001"; Log 1700000000002 RestartingSystem]
     ++ Exec "sudo shutdown -r +1" :: [])%list /\
  guard_file (world (restartSystem "production" "linux" 1800000 w)) =
    Some "1700000000001".
Proof.
  intros w.
  assert (E : emitted (restartSystem "production" "linux" 1800000 w) =
              ([WriteFile "1700000000001"; Log 1700000000002 RestartingSystem]
               ++ Exec "sudo shutdown -r +1" :: [])%list)
    by (vm_compute; reflexivity).
  split; [exact E | ].
  pose proof (record_written_before_reboot _ _ _ _ _ _ _ E) as H.
  cbv zeta in H. destruct H as (_ & _ & H).
  rewrite H; reflexivity.
Defined.

(** ** The interval callback and the other jobs *)

(** The two ways through the interval callback: the request is sent, then
    [restartSystem] runs if the alarm, as the earlier jobs left it, has
    matured. *)
Lemma interval_callback_paths
    (env platform : string) (MIN : Z) (w : World) :
  interval_callback env platform MIN w =
  let w1 := set_in_flight (S (in_flight w)) w in
  if alarm w && (timestamp_alarm w <=? next_reading w) then
    let o := restartSystem env platform MIN (set_reads (S (reads w)) w1) in
    mkOutcome (completion o) (world o) (HttpGet :: emitted o)
  else
    mkOutcome (Normal tt)
              (if alarm w then set_reads (S (reads w)) w1 else w1) [HttpGet].
Proof.
  destruct w as [[ | ] d f g c n i]; cbv zeta.
  - unfold next_reading. cbn [alarm timestamp_alarm clock reads andb in_flight].
    unfold interval_callback, alarm_matured, checkTimestamp_call. js_unfold.
    destruct (d <=? c n).
    + destruct (restartSystem env platform MIN _) as [[ | ] ? ?] eqn:E;
        reflexivity.
    + reflexivity.
  - reflexivity.
Qed.

Lemma interval_callback_completes
    (env platform : string) (MIN : Z) (w : World) :
  completion (interval_callback env platform MIN w) = Normal tt.
Proof.
  rewrite interval_callback_paths. cbv zeta.
  destruct (_ && _); [ | reflexivity].
  cbn [completion]. apply restartSystem_completes.
Qed.

(** The interval callback leaves the alarm variables and the clock alone. *)
Lemma interval_callback_frame
    (env platform : string) (MIN : Z) (w : World) :
  let w' := world (interval_callback env platform MIN w) in
  alarm w' = alarm w /\ timestamp_alarm w' = timestamp_alarm w /\
  clock w' = clock w.
Proof.
  rewrite interval_callback_paths. cbv zeta.
  destruct (_ && _).
  - cbn [world].
    destruct (restartSystem_frame env platform MIN
                (set_reads (S (reads w)) (set_in_flight (S (in_flight w)) w)))
      as (F1 & F2 & F3 & _).
    rewrite F1, F2, F3. destruct w; auto.
  - cbn [world]. destruct w as [[ | ] ? ? ? ? ? ? ?]; cbn; auto.
Qed.

Lemma exec_callback_frame (error : option Error) (stdout stderr : string)
    (w : World) :
  let o := exec_callback error stdout stderr w in
  completion o = Normal tt /\
  alarm (world o) = alarm w /\ timestamp_alarm (world o) = timestamp_alarm w /\
  clock (world o) = clock w.
Proof.
  destruct w, error as [e | ], stdout, stderr; cbn; auto.
Qed.

(** ** Persistence errors *)

(** C9 (as stated, refuted). A failed read is not permissive in itself:
    with no record to read, a clock that shows ten minutes past the epoch
    and a matured alarm, the tick reads the missing record as the instant
    0, finds [now - 0] inside the thirty-minute interval and skips the
    reboot. *)
Lemma unreadable_record_denied_near_epoch :
  let w := mkWorld true 500000 None true (ticking_clock 600000) 0 0
                   eacces_message in
  guard_file w = None /\
  completion (alarm_matured w) = Normal true /\
  emitted (interval_callback "production" "linux" 1800000 w) =
    [HttpGet; Log 600002 RestartSkipped] /\
  ~ (guard_file w = None ->
     reboot_issued (interval_callback "production" "linux" 1800000 w) = true).
Proof.
  cbv zeta. split; [reflexivity | ].
  split; [reflexivity | ].
  split; [vm_compute; reflexivity | ].
  intros H. specialize (H eq_refl). vm_compute in H. discriminate H.
Qed.

(** C9 (amended). Neither [restartSystem] nor the interval callback ever
    ends with an exception. When the record cannot be read,
    [getLastRebootTimestamp] returns 0, the guard decides as it does on
    an empty record, and it permits exactly when
    [now >= MIN_REBOOT_INTERVAL]. When the record cannot be written and
    the guard permits, the message of the error is logged, the record
    stays as it was and the reboot command is issued all the same. *)
Theorem persistence_errors_do_not_abort
    (env platform : string) (MIN : Z) (w : World) :
  completion (restartSystem env platform MIN w) = Normal tt /\
  completion (interval_callback env platform MIN w) = Normal tt /\
  (guard_file w = None ->
   getLastRebootTimestamp w = mkOutcome (Normal 0) w [] /\
   emitted (restartSystem env platform MIN w) =
   emitted (restartSystem env platform MIN (set_guard_file (Some "") w)) /\
   (reboot_issued (restartSystem env platform MIN w) = true <->
    MIN <= next_reading w)) /\
  (guard_writable w = false ->
   MIN <= next_reading w - recorded_last w ->
   emitted (restartSystem env platform MIN w) =
     [WriteFile (toString (clock w (S (reads w))));
      Log (clock w (S (S (reads w))))
          (ErrorWritingRebootFile (guard_write_failure w));
      Log (clock w (S (S (S (reads w))))) RestartingSystem;
      Exec (restart_command env platform)] /\
   guard_file (world (restartSystem env platform MIN w)) = guard_file w).
Proof.
  split; [apply restartSystem_completes | ].
  split; [apply interval_callback_completes | ].
  split.
  - intros Hf. split; [ | split].
    + rewrite getLastRebootTimestamp_value, (recorded_last_unreadable w Hf).
      reflexivity.
    + rewrite !restartSystem_paths.
      replace (recorded_last (set_guard_file (Some "") w)) with 0
        by (destruct w; reflexivity).
      replace (next_reading (set_guard_file (Some "") w)) with (next_reading w)
        by (destruct w; reflexivity).
      rewrite (recorded_last_unreadable w Hf).
      destruct (_ <? _); [reflexivity | ].
      destruct w as [a d f [ | ] c n i m]; reflexivity.
    + rewrite reboot_issued_iff, (recorded_last_unreadable w Hf).
      split; intros H; lia.
  - intros Hw Hp.
    rewrite (restartSystem_reboots_unrecorded env platform MIN w Hp Hw).
    split; [reflexivity | destruct w; reflexivity].
Qed.

(** A machine whose record can be neither read nor written, with a clock
    of today: the read gives 0, the guard permits, the write fails with
    the message of the file system, which is logged, and the command is
    issued. *)
Lemma persistence_errors_do_not_abort_witness :
  let w := mkWorld true 1700000000000 None false
                   (ticking_clock 1700000000000) 0 0 eacces_message in
  getLastRebootTimestamp w = mkOutcome (Normal 0) w [] /\
  reboot_issued (restartSystem "production" "linux" 1800000 w) = true /\
  emitted (restartSystem "production" "linux" 1800000 w) =
    [WriteFile "1700000000001";
     Log 1700000000002 (ErrorWritingRebootFile eacces_message);
     Log 1700000000003 RestartingSystem;
     Exec "sudo shutdown -r +1"] /\
  guard_file (world (restartSystem "production" "linux" 1800000 w)) = None /\
  completion (interval_callback "production" "linux" 1800000 w) = Normal tt.
Proof.
  intros w.
  destruct (persistence_errors_do_not_abort "production" "linux" 1800000 w)
    as (_ & Hc & Hr & Hw).
  destruct (Hr eq_refl) as (Hr0 & _ & Hr2).
  destruct (Hw eq_refl) as [Hw1 Hw2].
  - vm_compute. discriminate.
  - split; [exact Hr0 | ].
    split; [apply Hr2; vm_compute; discriminate | ].
    split; [exact Hw1 | ].
    split; [exact Hw2 | exact Hc].
Defined.

(** ** The invariant of the alarm variables *)

Lemma setAlarm_invariant (T : Z) (state : bool) (w : World) :
  0 <= T -> 0 < next_reading w ->
  alarm_invariant w ->
  alarm_invariant (world (setAlarm T state w)).
Proof.
  intros HT Hnow Hinv. unfold alarm_invariant in *.
  destruct state, (alarm w) eqn:E.
  - rewrite setAlarm_same by assumption. cbn [world]. rewrite E. exact Hinv.
  - rewrite setAlarm_arms by assumption. cbn [world alarm timestamp_alarm].
    split; [reflexivity | intros _; lia].
  - rewrite setAlarm_disarms by assumption. cbn [world alarm timestamp_alarm].
    split; [intros H; contradiction H; reflexivity | discriminate].
  - rewrite setAlarm_same by assumption. cbn [world]. rewrite E. exact Hinv.
Qed.

Lemma setAlarm_keeps_timestamp (T : Z) (state : bool) (w : World) :
  alarm w = true ->
  alarm (world (setAlarm T state w)) = true ->
  timestamp_alarm (world (setAlarm T state w)) = timestamp_alarm w.
Proof.
  intros Ha Ha'. rewrite setAlarm_alarm in Ha'. subst state.
  rewrite setAlarm_same by assumption. reflexivity.
Qed.

Section Jobs.

Variables (env platform : string) (A T MIN : Z).

Lemma job_request_settles (r : Response) (w : World) :
  job env platform A T MIN (RequestSettles r) w =
  checkTimestamp_resume A T r (set_in_flight (Nat.pred (in_flight w)) w).
Proof.
  destruct w as [a d f g c n i m]. cbn [job]. js_unfold.
  destruct (checkTimestamp_resume A T r _) as [[ | ] ? ?]; reflexivity.
Qed.

Lemma run_events_cons (e : Event) (es : list Event) (w : World) :
  world (run_events env platform A T MIN (e :: es) w) =
  match completion (job env platform A T MIN e w) with
  | Normal _ =>
      world (run_events env platform A T MIN es
               (world (job env platform A T MIN e w)))
  | Throw _ => world (job env platform A T MIN e w)
  end.
Proof.
  cbn [run_events]. js_unfold.
  destruct (job env platform A T MIN e w) as [[ | ] ? ?]; reflexivity.
Qed.

Lemma client_world (es : list Event) (w : World) :
  world (client env platform A T MIN es w) =
  world (run_events env platform A T MIN es
           (set_in_flight (S (in_flight w)) (set_reads (S (S (reads w))) w))).
Proof.
  destruct w as [a d f g c n i m].
  unfold client, startClient, checkTimestamp_call. js_unfold. reflexivity.
Qed.

Lemma job_completes (e : Event) (w : World) :
  completion (job env platform A T MIN e w) = Normal tt.
Proof.
  destruct e as [ | r | error stdout stderr].
  - apply interval_callback_completes.
  - rewrite job_request_settles. apply checkTimestamp_resume_completes.
  - apply exec_callback_frame.
Qed.

Lemma job_alarm_invariant (e : Event) (w : World) :
  0 <= T -> (forall n, 0 < clock w n) ->
  alarm_invariant w ->
  alarm_invariant (world (job env platform A T MIN e w)) /\
  clock (world (job env platform A T MIN e w)) = clock w.
Proof.
  intros HT Hclock Hinv.
  destruct e as [ | r | error stdout stderr].
  - destruct (interval_callback_frame env platform MIN w) as (F1 & F2 & F3).
    cbn [job]. unfold alarm_invariant in *. rewrite F1, F2. auto.
  - rewrite job_request_settles.
    set (w1 := set_in_flight (Nat.pred (in_flight w)) w).
    destruct (checkTimestamp_resume_setAlarm A T r w1) as (k & ts & msg & H).
    cbv zeta in H. rewrite H. cbn [world].
    split.
    + apply setAlarm_invariant; [assumption | | ].
      * destruct w; apply Hclock.
      * destruct w; exact Hinv.
    + destruct (setAlarm_frame T (out_of_sync_at A r w1)
                  (set_reads (k + reads w1) w1)) as (_ & _ & F & _).
      rewrite F. destruct w; reflexivity.
  - destruct (exec_callback_frame error stdout stderr w) as (_ & F1 & F2 & F3).
    cbn [job]. unfold alarm_invariant in *. rewrite F1, F2. auto.
Qed.

Lemma run_events_alarm_invariant (es : list Event) :
  forall w,
    0 <= T -> (forall n, 0 < clock w n) ->
    alarm_invariant w ->
    alarm_invariant (world (run_events env platform A T MIN es w)).
Proof.
  induction es as [ | e es IH]; intros w HT Hclock Hinv.
  - exact Hinv.
  - destruct (job_alarm_invariant e w HT Hclock Hinv) as [Hinv' Hc'].
    rewrite run_events_cons, job_completes.
    apply IH; [assumption | rewrite Hc'; assumption | assumption].
Qed.

End Jobs.
(** ** Maturity *)

Section Maturity.

Variables (env platform : string) (A T MIN : Z).

(** While the alarm is set, a job that is not an in-sync sample leaves
    both alarm variables. *)
Lemma job_stays_armed (e : Event) (w : World) :
  alarm w = true ->
  match e with
  | RequestSettles r => out_of_sync_at A r w = true
  | _ => True
  end ->
  alarm (world (job env platform A T MIN e w)) = true /\
  timestamp_alarm (world (job env platform A T MIN e w)) = timestamp_alarm w.
Proof.
  intros Ha He.
  destruct e as [ | r | error stdout stderr].
  - destruct (interval_callback_frame env platform MIN w) as (F1 & F2 & _).
    cbn [job]. rewrite F1, F2. auto.
  - rewrite job_request_settles.
    set (w1 := set_in_flight (Nat.pred (in_flight w)) w).
    assert (Ha1 : alarm w1 = true) by (destruct w; exact Ha).
    assert (Ho1 : out_of_sync_at A r w1 = true) by (destruct w; exact He).
    destruct (checkTimestamp_resume_stays_armed A T r w1 Ha1 Ho1) as [H1 H2].
    rewrite H1, H2. destruct w; auto.
  - destruct (exec_callback_frame error stdout stderr w) as (_ & F1 & F2 & _).
    cbn [job]. rewrite F1, F2. auto.
Qed.

Lemma run_events_stays_armed (es : list Event) :
  forall w,
    alarm w = true ->
    no_in_sync_sample env platform A T MIN es w = true ->
    alarm (world (run_events env platform A T MIN es w)) = true /\
    timestamp_alarm (world (run_events env platform A T MIN es w)) =
    timestamp_alarm w.
Proof.
  induction es as [ | e es IH]; intros w Ha Hno.
  - auto.
  - cbn [no_in_sync_sample] in Hno.
    apply andb_true_iff in Hno as [He Hrest].
    assert (He' : match e with
                  | RequestSettles r => out_of_sync_at A r w = true
                  | _ => True
                  end) by (destruct e; auto).
    destruct (job_stays_armed e w Ha He') as [Ha' Ht'].
    rewrite run_events_cons, job_completes.
    destruct (IH _ Ha' Hrest) as [Ha'' Ht''].
    split; [assumption | congruence].
Qed.

End Maturity.

(** C6. For an alarm armed at [raisedAt], the test of the interval
    callback is true exactly when the clock reading it takes is at least
    [raisedAt + TIMEOUT_DURATION]; and through any run of the client in
    which no sample is taken as in sync (failed requests, answers with a
    drift above the bound, ticks and ended commands in between) the alarm
    stays armed with the same [raisedAt]. *)
Theorem maturity_measured_from_first_bad_sample
    (env platform : string) (A T MIN : Z) (w : World) (raisedAt : Z) :
  alarm_state T w = Armed raisedAt ->
  (completion (alarm_matured w) = Normal true <->
   raisedAt + T <= next_reading w) /\
  (forall es,
      no_in_sync_sample env platform A T MIN es w = true ->
      alarm_state T (world (run_events env platform A T MIN es w)) =
      Armed raisedAt).
Proof.
  unfold alarm_state. destruct (alarm w) eqn:Ha; [ | discriminate].
  intros [= <-]. split.
  - rewrite alarm_matured_armed by assumption. cbn [completion].
    split.
    + intros [= H]. apply Z.leb_le in H. lia.
    + intros H. f_equal. apply Z.leb_le. lia.
  - intros es Hno.
    destruct (run_events_stays_armed env platform A T MIN es w Ha Hno)
      as [-> ->].
    reflexivity.
Qed.

(** An alarm raised at 1000 with a timeout of 180 s is not matured at
    180999 and is matured at 181000; a failed request, a tick, an answer
    without a body and an answer far off keep it raised at 1000. *)
Lemma maturity_measured_from_first_bad_sample_witness :
  let armed_at t :=
    mkWorld true 181000 (Some "170000") true (ticking_clock t) 0 3
            eacces_message in
  completion (alarm_matured (armed_at 180999)) <> Normal true /\
  completion (alarm_matured (armed_at 181000)) = Normal true /\
  alarm_state 180000
    (world (run_events "production" "linux" 300000 180000 1800000
              [RequestSettles (Rejected "timeout"); IntervalFires;
               RequestSettles (Fulfilled NoData);
               RequestSettles (Fulfilled (Timestamp (Num 900000)))]
              (armed_at 181000))) = Armed 1000.
Proof.
  intros armed_at.
  assert (H0 : alarm_state 180000 (armed_at 180999) = Armed 1000) by reflexivity.
  assert (H1 : alarm_state 180000 (armed_at 181000) = Armed 1000) by reflexivity.
  destruct (maturity_measured_from_first_bad_sample
              "production" "linux" 300000 180000 1800000 _ _ H0) as [M0 _].
  destruct (maturity_measured_from_first_bad_sample
              "production" "linux" 300000 180000 1800000 _ _ H1) as [M1 K1].
  split; [ | split].
  - intros H. apply M0 in H. vm_compute in H. apply H. reflexivity.
  - apply M1. vm_compute. discriminate.
  - apply K1. vm_compute. reflexivity.
Defined.


(** C8. [raisedAt] is set (the time stamp is not 0) exactly when the
    alarm is active: this holds for the variables as the module
    initialises them, every call of [setAlarm] keeps it and leaves the
    time stamp of an alarm that stays active, and so does every run of
    the client. The clock is taken to show a time after the epoch and the
    timeout to be non-negative, as [safeNumber] makes it. *)
Theorem alarm_invariant_preserved :
  (forall file writable readings failure,
      alarm_invariant (initial_world file writable readings failure)) /\
  (forall T state w,
      0 <= T -> 0 < next_reading w -> alarm_invariant w ->
      alarm_invariant (world (setAlarm T state w)) /\
      (alarm w = true -> alarm (world (setAlarm T state w)) = true ->
       timestamp_alarm (world (setAlarm T state w)) = timestamp_alarm w)) /\
  (forall env platform A T MIN es file writable readings failure,
      0 <= T -> (forall n, 0 < readings n) ->
      alarm_invariant
        (world (client env platform A T MIN es
                  (initial_world file writable readings failure)))).
Proof.
  split; [ | split].
  - intros file writable readings failure. unfold alarm_invariant. cbn.
    split; [intros H; contradiction H; reflexivity | discriminate].
  - intros T state w HT Hnow Hinv. split.
    + apply setAlarm_invariant; assumption.
    + apply setAlarm_keeps_timestamp.
  - intros env platform A T MIN es file writable readings failure HT Hclock.
    rewrite client_world.
    apply run_events_alarm_invariant; [assumption | exact Hclock | ].
    unfold alarm_invariant. cbn.
    split; [intros H; contradiction H; reflexivity | discriminate].
Qed.

(** A client that sees a failed request, a tick and a good answer: the
    alarm is raised with a non-zero time stamp, then cleared to 0. *)
Lemma alarm_invariant_preserved_witness :
  let w0 := initial_world None true (ticking_clock 1700000000000) eacces_message in
  let run es := world (client "production" "linux" 300000 180000 1800000 es w0) in
  alarm_invariant (run [RequestSettles (Rejected "timeout")]) /\
  alarm (run [RequestSettles (Rejected "timeout")]) = true /\
  alarm_invariant
    (run [RequestSettles (Rejected "timeout"); IntervalFires;
          RequestSettles (Fulfilled (Timestamp (Num 1700000000000)))]) /\
  alarm_invariant (world (setAlarm 180000 true w0)).
Proof.
  intros w0 run.
  destruct alarm_invariant_preserved as (Hinit & Hset & Hrun).
  assert (Hclock : forall n, 0 < ticking_clock 1700000000000 n)
    by (intros n; unfold ticking_clock; lia).
  assert (HT : 0 <= 180000) by lia.
  split; [ | split; [ | split]].
  - apply (Hrun "production" "linux" 300000 180000 1800000 _ None true _
             eacces_message HT Hclock).
  - reflexivity.
  - apply (Hrun "production" "linux" 300000 180000 1800000 _ None true _
             eacces_message HT Hclock).
  - apply (Hset 180000 true w0 HT); [apply Hclock | apply Hinit].
Defined.

(** ** The order of a tick *)

(** The reboot decision of a tick is made on the world the earlier jobs
    left: the answer to the request this tick sends plays no part. *)
Lemma interval_callback_reboot_iff
    (env platform : string) (MIN : Z) (w : World) :
  reboot_issued (interval_callback env platform MIN w) = true <->
  alarm w = true /\ timestamp_alarm w <= next_reading w /\
  MIN <= clock w (S (reads w)) - recorded_last w.
Proof.
  rewrite interval_callback_paths. cbv zeta.
  destruct (alarm w) eqn:Ha; cbn [andb].
  - destruct (timestamp_alarm w <=? next_reading w) eqn:Hd.
    + apply Z.leb_le in Hd.
      unfold reboot_issued. cbn [emitted existsb is_exec orb].
      fold (reboot_issued
              (restartSystem env platform MIN
                 (set_reads (S (reads w)) (set_in_flight (S (in_flight w)) w)))).
      rewrite reboot_issued_iff.
      replace (recorded_last _) with (recorded_last w)
        by (destruct w as [? ? [ | ] ? ? ? ?]; reflexivity).
      replace (next_reading _) with (clock w (S (reads w)))
        by (destruct w; reflexivity).
      tauto.
    + apply Z.leb_gt in Hd. cbn. split; [discriminate | lia].
  - cbn. split; [discriminate | intros [H _]; discriminate H].
Qed.

(** C2 (what the source does). The alarm was raised by an earlier sample
    and has matured; the machine has recovered, so the request of this
    tick is answered with the local time. The interval callback sends the
    request and issues the reboot command in the same job, before the
    answer is there; the in-sync sample is logged and the alarm cleared
    only afterwards. *)
Theorem reboot_decided_before_sample_resolved :
  let w := mkWorld true 1700000180000 None true
                   (ticking_clock 1700000300000) 0 0 eacces_message in
  let in_sync := Fulfilled (Timestamp (Num 1700000300000)) in
  let o := run_events "production" "linux" 300000 180000 1800000
             [IntervalFires; RequestSettles in_sync] w in
  schedulable "production" "linux" 300000 180000 1800000
    [IntervalFires; RequestSettles in_sync] w = true /\
  emitted o =
    [HttpGet;
     WriteFile "1700000300002";
     Log 1700000300003 RestartingSystem;
     Exec "sudo shutdown -r +1";
     Log 1700000300005 (TimestampOK (Num 4));
     Log 1700000300006 AlarmDeactivated] /\
  alarm (world o) = false.
Proof.
  vm_compute. repeat split.
Qed.

(** ** Start-up *)

Lemma env_of_set (v : string) : v <> "" -> env_of (Some v) = v.
Proof.
  destruct v; [intros H; contradiction H; reflexivity | reflexivity].
Qed.

(** C10 (as stated, refuted). [NODE_ENV] set to the empty string is
    neither "development" nor "production", and start-up does not throw:
    the empty string is falsy, [env] is "production" and the client is
    started. *)
Lemma empty_NODE_ENV_runs_in_production :
  let o := main (Some "") "linux" 300000 180000 1800000 ["--client"]
             (initial_world None true (ticking_clock 1700000000000) eacces_message) in
  "" <> "development" /\ "" <> "production" /\
  completion o = Normal tt /\
  emitted o =
    [Log 1700000000000 ProductionModeActivated; Log 1700000000001 ApiUrl;
     Log 1700000000002 ClientModeActivated; Log 1700000000003 ClientSettings;
     HttpGet; SetInterval].
Proof.
  cbv zeta. split; [discriminate | split; [discriminate | ]].
  vm_compute. split; reflexivity.
Qed.

(** C10 (amended). For every non-empty value of [NODE_ENV] other than
    "development" and "production", start-up logs the unknown mode and
    then throws on the assignment to the constant [env]: nothing else is
    emitted, so neither the server nor the client is started. Unset and
    empty both give "production". *)
Theorem unknown_mode_throws_at_startup
    (v platform : string) (A T MIN : Z) (args : list string) (w : World) :
  v <> "" -> v <> "development" -> v <> "production" ->
  main (Some v) platform A T MIN args w =
  mkOutcome (Throw (mkError "Assignment to constant variable."))
            (set_reads (S (reads w)) w)
            [Log (next_reading w) UnknownModeAssumingProduction] /\
  env_of None = "production" /\ env_of (Some "") = "production".
Proof.
  intros Hne Hdev Hprod.
  split; [ | split; reflexivity].
  unfold main. rewrite (env_of_set v Hne).
  unfold isDevelopmentMode, isProductionMode.
  apply String.eqb_neq in Hdev, Hprod. rewrite Hdev, Hprod.
  destruct w as [a d f g c n i m]. js_unfold. reflexivity.
Qed.

(** [NODE_ENV=staging node app.js --server --client] stops after one log
    line. *)
Lemma unknown_mode_throws_at_startup_witness :
  let w := initial_world None true (ticking_clock 1700000000000) eacces_message in
  completion (main (Some "staging") "linux" 300000 180000 1800000
                ["--server"; "--client"] w) =
    Throw (mkError "Assignment to constant variable.") /\
  emitted (main (Some "staging") "linux" 300000 180000 1800000
             ["--server"; "--client"] w) =
    [Log 1700000000000 UnknownModeAssumingProduction].
Proof.
  intros w.
  destruct (unknown_mode_throws_at_startup "staging" "linux"
              300000 180000 1800000 ["--server"; "--client"] w) as [H _].
  - discriminate.
  - discriminate.
  - discriminate.
  - rewrite H. split; reflexivity.
Defined.

(** * Further properties of the client *)

(** ** Traces of jobs and runs *)

Lemma logs_hold_no_command (l : list Effect) :
  forallb is_log l = true -> existsb is_exec l = false.
Proof.
  induction l as [ | e l IH]; [reflexivity | ].
  cbn [forallb existsb]. intros H. apply andb_true_iff in H as [He Hl].
  rewrite (IH Hl). destruct e; try discriminate; reflexivity.
Qed.

Lemma logs_hold_no_write (l : list Effect) (data : string) :
  forallb is_log l = true -> ~ In (WriteFile data) l.
Proof.
  intros H Hin.
  rewrite forallb_forall in H. apply H in Hin. discriminate.
Qed.

Lemma exec_callback_logs (error : option Error) (stdout stderr : string)
    (w : World) :
  let o := exec_callback error stdout stderr w in
  forallb is_log (emitted o) = true /\
  guard_file (world o) = guard_file w /\
  guard_writable (world o) = guard_writable w.
Proof.
  destruct w, error as [e | ], stdout, stderr; cbn; auto.
Qed.

Section Traces.

Variables (env platform : string) (A T MIN : Z).

Lemma run_events_cons_emitted (e : Event) (es : list Event) (w : World) :
  emitted (run_events env platform A T MIN (e :: es) w) =
  (emitted (job env platform A T MIN e w)
   ++ emitted (run_events env platform A T MIN es
                 (world (job env platform A T MIN e w))))%list.
Proof.
  pose proof (job_completes env platform A T MIN e w) as H.
  cbn [run_events].
  change (emitted ((job env platform A T MIN e ;;
                    run_events env platform A T MIN es) w))
    with (emitted (JS_bind (job env platform A T MIN e)
                     (fun _ => run_events env platform A T MIN es) w)).
  unfold JS_bind. rewrite H. reflexivity.
Qed.

Lemma job_clock (e : Event) (w : World) :
  clock (world (job env platform A T MIN e w)) = clock w.
Proof.
  destruct e as [ | r | error stdout stderr].
  - apply interval_callback_frame.
  - rewrite job_request_settles.
    destruct (checkTimestamp_resume_frame A T r
                (set_in_flight (Nat.pred (in_flight w)) w)) as (_ & _ & F & _).
    rewrite F. destruct w; reflexivity.
  - apply exec_callback_frame.
Qed.

(** The command of every [exec] a job calls is the one lines 145-153
    choose. *)
Lemma job_exec_command (e : Event) (w : World) (cmd : string) :
  In (Exec cmd) (emitted (job env platform A T MIN e w)) ->
  cmd = restart_command env platform.
Proof.
  destruct e as [ | r | error stdout stderr].
  - cbn [job]. rewrite interval_callback_paths. cbv zeta.
    destruct (_ && _); cbn [emitted].
    + rewrite restartSystem_paths.
      destruct (_ <? _); [ | destruct (guard_writable _)]; cbn [emitted];
        intros Hin; cbn in Hin;
        repeat (destruct Hin as [Hin | Hin]; [try discriminate | ]);
        try contradiction; injection Hin as <-; reflexivity.
    + intros [Hin | []]. discriminate.
  - rewrite job_request_settles. intros Hin.
    destruct (checkTimestamp_resume_frame A T r
                (set_in_flight (Nat.pred (in_flight w)) w)) as (_ & _ & _ & _ & F).
    rewrite forallb_forall in F. apply F in Hin. discriminate.
  - cbn [job]. intros Hin.
    destruct (exec_callback_logs error stdout stderr w) as (F & _).
    rewrite forallb_forall in F. apply F in Hin. discriminate.
Qed.

Lemma run_events_exec_command (es : list Event) :
  forall (w : World) (cmd : string),
    In (Exec cmd) (emitted (run_events env platform A T MIN es w)) ->
    cmd = restart_command env platform.
Proof.
  induction es as [ | e es IH]; intros w cmd Hin.
  - destruct Hin.
  - rewrite run_events_cons_emitted in Hin.
    apply in_app_or in Hin as [Hin | Hin].
    + exact (job_exec_command e w cmd Hin).
    + exact (IH _ cmd Hin).
Qed.

Lemma client_emitted (es : list Event) (w : World) :
  exists t1 t2,
    emitted (client env platform A T MIN es w) =
    (Log t1 ClientModeActivated :: Log t2 ClientSettings :: HttpGet
     :: SetInterval
     :: emitted (run_events env platform A T MIN es
                   (set_in_flight (S (in_flight w))
                      (set_reads (S (S (reads w))) w))))%list.
Proof.
  destruct w as [a d f g c n i m].
  exists (c n), (c (S n)).
  unfold client, startClient, checkTimestamp_call. js_unfold.
  destruct (run_events env platform A T MIN es _) as [[ | ] ? ?]; reflexivity.
Qed.

End Traces.

(** ** Who reboots, and with which command *)

(** X1. Of the jobs of the event loop only the interval callback can
    issue the reboot command, and it does so exactly when the alarm is
    set, its deadline is reached by the reading of line 188 and the guard
    permits at the reading of line 133. A job that issues no command
    leaves the record as it was. *)
Theorem reboot_only_from_matured_tick
    (env platform : string) (A T MIN : Z) (e : Event) (w : World) :
  (reboot_issued (job env platform A T MIN e w) = true <->
   e = IntervalFires /\ alarm w = true /\
   timestamp_alarm w <= next_reading w /\
   MIN <= clock w (S (reads w)) - recorded_last w) /\
  (reboot_issued (job env platform A T MIN e w) = false ->
   guard_file (world (job env platform A T MIN e w)) = guard_file w).
Proof.
  destruct e as [ | r | error stdout stderr].
  - cbn [job]. split.
    + rewrite interval_callback_reboot_iff. tauto.
    + rewrite interval_callback_paths. cbv zeta.
      destruct (_ && _).
      * unfold reboot_issued. cbn [emitted world existsb is_exec orb].
        rewrite restartSystem_paths.
        destruct (_ <? _); [ | destruct (guard_writable _)];
          cbn [emitted world existsb is_exec orb]; try discriminate.
        intros _. destruct w; reflexivity.
      * intros _. destruct w as [[ | ] ? ? ? ? ? ? ?]; reflexivity.
  - rewrite job_request_settles.
    destruct (checkTimestamp_resume_frame A T r
                (set_in_flight (Nat.pred (in_flight w)) w)) as (F1 & _ & _ & _ & F).
    split.
    + unfold reboot_issued. rewrite (logs_hold_no_command _ F).
      split; [discriminate | intros [H _]; discriminate H].
    + intros _. rewrite F1. destruct w; reflexivity.
  - cbn [job].
    destruct (exec_callback_logs error stdout stderr w) as (F & F1 & _).
    split.
    + unfold reboot_issued. rewrite (logs_hold_no_command _ F).
      split; [discriminate | intros [H _]; discriminate H].
    + intros _. exact F1.
Qed.

(** A matured alarm inside the cooldown: the tick issues nothing and the
    record "1000000" stays. *)
Lemma reboot_only_from_matured_tick_witness :
  let w := mkWorld true 2000000 (Some "1000000") true (ticking_clock 2500000)
                   0 0 eacces_message in
  reboot_issued (interval_callback "production" "linux" 1800000 w) = false /\
  guard_file (world (interval_callback "production" "linux" 1800000 w)) =
    Some "1000000".
Proof.
  intros w.
  destruct (reboot_only_from_matured_tick
              "production" "linux" 300000 180000 1800000 IntervalFires w)
    as [_ H].
  assert (E : reboot_issued (interval_callback "production" "linux" 1800000 w)
              = false) by (vm_compute; reflexivity).
  split; [exact E | exact (H E)].
Defined.

(** X2. Whatever the events of a run of the client, every command it
    executes is the one chosen at lines 145-153; in development mode that
    is one of the two [echo] commands, so no run of a development client
    shuts the machine down, and outside development mode it is one of the
    two [shutdown] commands. *)
Theorem development_client_never_shuts_down
    (env platform : string) (A T MIN : Z) (es : list Event) (w : World)
    (cmd : string) :
  In (Exec cmd) (emitted (client env platform A T MIN es w)) ->
  cmd = restart_command env platform /\
  (env = "development" ->
   cmd = "cmd /c echo Win Shutdown" \/ cmd = "echo Unix Shutdown") /\
  (env <> "development" ->
   cmd = "shutdown /r /t 60" \/ cmd = "sudo shutdown -r +1").
Proof.
  intros Hin.
  destruct (client_emitted env platform A T MIN es w) as (t1 & t2 & E).
  rewrite E in Hin.
  repeat (destruct Hin as [Hin | Hin]; [discriminate | ]).
  apply run_events_exec_command in Hin. subst cmd.
  split; [reflexivity | ].
  unfold restart_command, isDevelopmentMode.
  split.
  - intros ->. rewrite String.eqb_refl.
    destruct (String.eqb platform "win32"); auto.
  - intros Hne. apply String.eqb_neq in Hne. rewrite Hne.
    destruct (String.eqb platform "win32"); auto.
Qed.

(** A development client on Linux whose alarm matures: the one command
    of the run is the [echo]. *)
Lemma development_client_never_shuts_down_witness :
  let w := initial_world None true (ticking_clock 1700000000000) eacces_message in
  let es := [RequestSettles (Rejected "ECONNREFUSED"); IntervalFires] in
  In (Exec "echo Unix Shutdown")
     (emitted (client "development" "linux" 300000 0 1800000 es w)) /\
  "echo Unix Shutdown" = restart_command "development" "linux".
Proof.
  intros w es.
  assert (Hin : In (Exec "echo Unix Shutdown")
                   (emitted (client "development" "linux" 300000 0 1800000 es w)))
    by (vm_compute; tauto).
  split; [exact Hin | ].
  apply (development_client_never_shuts_down
           "development" "linux" 300000 0 1800000 es w _ Hin).
Defined.

(** X3. Only a settled sample changes the alarm: a tick, whether it
    reboots or not, and the end of the reboot command leave [alarm] and
    [timestamp_alarm] as they were, so an alarm that led to a reboot
    command stays raised with its deadline. *)
Theorem alarm_changed_by_samples_only
    (env platform : string) (A T MIN : Z) (e : Event) (w : World) :
  (forall r, e <> RequestSettles r) ->
  alarm (world (job env platform A T MIN e w)) = alarm w /\
  timestamp_alarm (world (job env platform A T MIN e w)) = timestamp_alarm w.
Proof.
  intros Hne.
  destruct e as [ | r | error stdout stderr].
  - destruct (interval_callback_frame env platform MIN w) as (F1 & F2 & _).
    cbn [job]. auto.
  - contradiction (Hne r). reflexivity.
  - destruct (exec_callback_frame error stdout stderr w) as (_ & F1 & F2 & _).
    cbn [job]. auto.
Qed.

(** The tick that reboots leaves the alarm raised with the deadline
    1700000180000. *)
Lemma alarm_changed_by_samples_only_witness :
  let w := mkWorld true 1700000180000 None true
                   (ticking_clock 1700000300000) 0 0 eacces_message in
  let w' := world (job "production" "linux" 300000 180000 1800000
                       IntervalFires w) in
  alarm w' = true /\ timestamp_alarm w' = 1700000180000.
Proof.
  intros w w'.
  apply (alarm_changed_by_samples_only
           "production" "linux" 300000 180000 1800000 IntervalFires w).
  intros r. discriminate.
Defined.

(** X4. After [setAlarm(state)] the alarm is [state], and a second call
    with the same argument does nothing: no clock reading, no log line,
    the deadline of a raised alarm is not moved. *)
Theorem setAlarm_repeated_is_silent (T : Z) (state : bool) (w : World) :
  let w1 := world (setAlarm T state w) in
  alarm w1 = state /\
  setAlarm T state w1 = mkOutcome (Normal tt) w1 [].
Proof.
  cbv zeta. split.
  - apply setAlarm_alarm.
  - apply setAlarm_same. apply setAlarm_alarm.
Qed.

(** ** The record of the last reboot *)

Lemma recorded_last_file (w1 w2 : World) :
  guard_file w1 = guard_file w2 -> recorded_last w1 = recorded_last w2.
Proof.
  destruct w1 as [a1 d1 f1 g1 c1 n1 i1 m1], w2 as [a2 d2 f2 g2 c2 n2 i2 m2].
  cbn [guard_file]. intros ->. destruct f2; reflexivity.
Qed.

(** X5. What [setLastRebootTimestamp] writes, [getLastRebootTimestamp]
    reads back: when the file can be written, the next read returns
    exactly the clock reading that was written, for every reading. *)
Theorem written_record_read_back (w : World) :
  guard_writable w = true ->
  let o := setLastRebootTimestamp w in
  completion o = Normal tt /\
  emitted o = [WriteFile (toString (next_reading w))] /\
  getLastRebootTimestamp (world o) =
  mkOutcome (Normal (next_reading w)) (world o) [].
Proof.
  intros Hw. cbv zeta.
  destruct w as [a d f g c n i m]. cbn [guard_writable] in Hw. subst g.
  split; [reflexivity | split; [reflexivity | ]].
  rewrite getLastRebootTimestamp_value. f_equal. f_equal.
  rewrite (recorded_last_readable _ (toString (c n))) by reflexivity.
  rewrite parseInt_toString. reflexivity.
Qed.

(** Written at 1700000000000 over an older record, read back as such. *)
Lemma written_record_read_back_witness :
  let w := initial_world (Some "1600000000000") true
                         (ticking_clock 1700000000000) eacces_message in
  completion (getLastRebootTimestamp (world (setLastRebootTimestamp w))) =
  Normal 1700000000000.
Proof.
  intros w.
  destruct (written_record_read_back w eq_refl) as (_ & _ & H).
  rewrite H. reflexivity.
Defined.

Section Record.

Variables (env platform : string) (MIN : Z).

Lemma restartSystem_record_monotone (w : World) :
  0 <= MIN ->
  clock w (reads w) <= clock w (S (reads w)) ->
  recorded_last w <= recorded_last (world (restartSystem env platform MIN w)).
Proof.
  intros HM Hc. rewrite restartSystem_paths.
  destruct (_ <? _) eqn:E; [ | destruct (guard_writable w)]; cbn [world].
  - rewrite recorded_last_reads. lia.
  - apply Z.ltb_ge in E. unfold next_reading in E.
    match goal with
    | |- _ <= recorded_last ?x =>
        rewrite (recorded_last_readable x (toString (clock w (S (reads w))))
                   eq_refl)
    end.
    rewrite parseInt_toString. cbn [or_zero]. lia.
  - rewrite recorded_last_reads. lia.
Qed.

End Record.

(** X6. The cooldown. Once a reboot was recorded at the reading [t], a
    later check that finds this record (in this process or after the
    restart) issues the command if and only if
    [now - t >= MIN_REBOOT_INTERVAL]; a check inside the interval leaves
    the record untouched. *)
Theorem cooldown_counts_from_recorded_reboot
    (env platform : string) (MIN : Z) (w w' : World) :
  MIN <= next_reading w - recorded_last w ->
  guard_writable w = true ->
  guard_file w' = guard_file (world (restartSystem env platform MIN w)) ->
  let t := clock w (S (reads w)) in
  (reboot_issued (restartSystem env platform MIN w') = true <->
   MIN <= next_reading w' - t) /\
  (next_reading w' - t < MIN ->
   guard_file (world (restartSystem env platform MIN w')) = guard_file w').
Proof.
  intros Hp Hw Hfile. cbv zeta.
  assert (Hlast : recorded_last w' = clock w (S (reads w))).
  { rewrite (recorded_last_file w' _ Hfile).
    apply recorded_reboot_read_back; assumption. }
  split.
  - rewrite reboot_issued_iff, Hlast. tauto.
  - intros Hin. rewrite restartSystem_skips by (rewrite Hlast; exact Hin).
    destruct w'; reflexivity.
Qed.

(** A reboot recorded at 1700000000001 with a 30-minute interval: a check
    29 minutes later is denied, a check 30 minutes later is permitted. *)
Lemma cooldown_counts_from_recorded_reboot_witness :
  let w := initial_world None true (ticking_clock 1700000000000) eacces_message in
  let later t := initial_world (Some "1700000000001") true (ticking_clock t) eacces_message in
  reboot_issued (restartSystem "production" "linux" 1800000
                   (later 1700001740001)) = false /\
  reboot_issued (restartSystem "production" "linux" 1800000
                   (later 1700001800001)) = true.
Proof.
  intros w later.
  assert (Hp : 1800000 <= next_reading w - recorded_last w)
    by (vm_compute; discriminate).
  assert (Hf : forall t, guard_file (later t) =
                         guard_file (world (restartSystem "production" "linux"
                                              1800000 w)))
    by (intros t; reflexivity).
  destruct (cooldown_counts_from_recorded_reboot
              "production" "linux" 1800000 w (later 1700001740001)
              Hp eq_refl (Hf _)) as [H0 _].
  destruct (cooldown_counts_from_recorded_reboot
              "production" "linux" 1800000 w (later 1700001800001)
              Hp eq_refl (Hf _)) as [H1 _].
  split.
  - apply not_true_is_false. intros E. apply H0 in E.
    vm_compute in E. apply E. reflexivity.
  - apply H1. vm_compute. discriminate.
Defined.

(** X7. When the record cannot be written there is no cooldown: the
    failed write leaves the record as it was, so a check that permitted
    once permits again at every later reading, and each matured tick
    issues the command anew. *)
Theorem unwritable_record_gives_no_cooldown
    (env platform : string) (MIN : Z) (w w' : World) :
  guard_writable w = false ->
  MIN <= next_reading w - recorded_last w ->
  guard_file w' = guard_file (world (restartSystem env platform MIN w)) ->
  next_reading w <= next_reading w' ->
  guard_file (world (restartSystem env platform MIN w)) = guard_file w /\
  reboot_issued (restartSystem env platform MIN w') = true.
Proof.
  intros Hw Hp Hfile Hlater.
  rewrite (restartSystem_reboots_unrecorded env platform MIN w Hp Hw) in *.
  cbn [world] in *.
  assert (Hsame : guard_file (set_reads (S (S (S (S (reads w))))) w) =
                  guard_file w) by (destruct w; reflexivity).
  split; [exact Hsame | ].
  apply reboot_issued_iff.
  rewrite (recorded_last_file w' w) by congruence.
  lia.
Qed.

(** A read-only disk: the check one minute after a reboot command issues
    the command again. *)
Lemma unwritable_record_gives_no_cooldown_witness :
  let w t := initial_world None false (ticking_clock t) eacces_message in
  reboot_issued (restartSystem "production" "linux" 1800000
                   (w 1700000060000)) = true.
Proof.
  intros w.
  apply (unwritable_record_gives_no_cooldown
           "production" "linux" 1800000 (w 1700000000000) (w 1700000060000)).
  - reflexivity.
  - vm_compute. discriminate.
  - reflexivity.
  - vm_compute. discriminate.
Defined.

Section RecordOfRun.

Variables (env platform : string) (A T MIN : Z).

Lemma job_record_monotone (e : Event) (w : World) :
  0 <= MIN ->
  (forall n, clock w n <= clock w (S n)) ->
  recorded_last w <= recorded_last (world (job env platform A T MIN e w)).
Proof.
  intros HM Hc.
  assert (Hsame : forall x, guard_file x = guard_file w ->
                            recorded_last w <= recorded_last x).
  { intros x Hx. rewrite (recorded_last_file x w Hx). lia. }
  destruct e as [ | r | error stdout stderr].
  - cbn [job]. rewrite interval_callback_paths. cbv zeta.
    destruct (_ && _); cbn [world].
    + set (w2 := set_reads (S (reads w)) (set_in_flight (S (in_flight w)) w)).
      rewrite (recorded_last_file w w2) by (destruct w; reflexivity).
      apply restartSystem_record_monotone; [assumption | ].
      destruct w; apply Hc.
    + apply Hsame. destruct w as [[ | ] ? ? ? ? ? ? ?]; reflexivity.
  - rewrite job_request_settles.
    destruct (checkTimestamp_resume_frame A T r
                (set_in_flight (Nat.pred (in_flight w)) w)) as (F & _).
    apply Hsame. rewrite F. destruct w; reflexivity.
  - cbn [job].
    destruct (exec_callback_logs error stdout stderr w) as (_ & F & _).
    apply Hsame. exact F.
Qed.

Lemma run_events_record_monotone (es : list Event) :
  forall w,
    0 <= MIN ->
    (forall n, clock w n <= clock w (S n)) ->
    recorded_last w <=
    recorded_last (world (run_events env platform A T MIN es w)).
Proof.
  induction es as [ | e es IH]; intros w HM Hc.
  - cbn. lia.
  - rewrite run_events_cons, job_completes.
    pose proof (job_record_monotone e w HM Hc) as H1.
    assert (Hc' : forall n,
               clock (world (job env platform A T MIN e w)) n <=
               clock (world (job env platform A T MIN e w)) (S n))
      by (rewrite job_clock; exact Hc).
    pose proof (IH _ HM Hc') as H2.
    lia.
Qed.

End RecordOfRun.

(** X8. With a clock that never runs backwards and a non-negative
    interval, the recorded instant never decreases along a run of the
    client: a reboot is only recorded at a reading that is at least the
    old record plus the interval. *)
Theorem record_never_goes_back
    (env platform : string) (A T MIN : Z) (es : list Event) (w : World) :
  0 <= MIN ->
  (forall n, clock w n <= clock w (S n)) ->
  recorded_last w <=
  recorded_last (world (client env platform A T MIN es w)).
Proof.
  intros HM Hc.
  rewrite client_world.
  set (w0 := set_in_flight (S (in_flight w)) (set_reads (S (S (reads w))) w)).
  rewrite (recorded_last_file w w0) by (destruct w; reflexivity).
  apply run_events_record_monotone; [assumption | ].
  destruct w; exact Hc.
Qed.

(** A client whose alarm matures at once (timeout 0) and reboots: the
    record goes from 1000000 to the reading of the write. *)
Lemma record_never_goes_back_witness :
  let w := initial_world (Some "1000000") true (ticking_clock 1700000000000) eacces_message in
  let es := [RequestSettles (Rejected "ECONNREFUSED"); IntervalFires] in
  1000000 <= recorded_last
               (world (client "production" "linux" 300000 0 1800000 es w)) /\
  recorded_last (world (client "production" "linux" 300000 0 1800000 es w)) =
    1700000000007.
Proof.
  intros w es. split.
  - apply (record_never_goes_back "production" "linux" 300000 0 1800000 es w).
    + lia.
    + intros n. unfold w, initial_world, ticking_clock. cbn [clock]. lia.
  - vm_compute. reflexivity.
Defined.

(** ** Reading the record through white space and trailing text *)

(** X9. [getLastRebootTimestamp] reads the number of a record through
    leading white space (a byte order mark, a no-break space, any white
    space of ECMAScript) and through whatever follows the digits (a line
    end, a unit, a comment): when the decoded text of the file is white
    space, an integer [n] of magnitude at most 2^53 in decimal, then text
    that does not start with a digit, the record reads as [n]. A record
    that decodes to white space only reads as 0. *)
Theorem record_read_through_white_space (w : World) :
  (forall (n : Z) (data : string) (pre rest : list N),
      Z.abs n <= 2 ^ 53 ->
      white pre ->
      stops_digits rest ->
      guard_file w = Some data ->
      utf8_decode data = pre ++ bytes_of (toString n) ++ rest ->
      getLastRebootTimestamp w = mkOutcome (Normal n) w []) /\
  (forall data : string,
      guard_file w = Some data ->
      white (utf8_decode data) ->
      getLastRebootTimestamp w = mkOutcome (Normal 0) w []).
Proof.
  split.
  - intros n data pre rest _ Hpre Hstop Hfile Htext.
    rewrite getLastRebootTimestamp_value.
    rewrite (recorded_last_readable w _ Hfile), parseInt_trim, Htext.
    replace (parseInt (pre ++ bytes_of (toString n) ++ rest))
      with (parseInt (bytes_of (toString n) ++ rest))
      by (unfold parseInt; rewrite (trim_start_white pre Hpre); reflexivity).
    rewrite (parseInt_number_then_text n rest Hstop). reflexivity.
  - intros data Hfile Hws.
    rewrite getLastRebootTimestamp_value.
    rewrite (recorded_last_readable w _ Hfile), parseInt_trim.
    change (utf8_decode data) with ([] ++ utf8_decode data).
    rewrite (parseInt_white_tail [] _ Hws). reflexivity.
Qed.

(** A record saved with a byte order mark (bytes 239 187 191), a
    no-break space (194 160) and a line end after the number; one with a
    unit after the number; and one that holds a byte order mark and
    blanks only. *)
Lemma record_read_through_white_space_witness :
  let record bytes :=
    initial_world (Some bytes) true (ticking_clock 0) eacces_message in
  let marked :=
    String "239" (String "187" (String "191" (String "194" (String "160"
      ("1700000000000" ++ String "013" (String "010" "")))))) in
  let blank := String "239" (String "187" (String "191" "   ")) in
  recorded_last (record marked) = 1700000000000 /\
  recorded_last (record "1700000000000ms") = 1700000000000 /\
  recorded_last (record blank) = 0.
Proof.
  intros record marked blank.
  destruct (record_read_through_white_space (record marked)) as [H1 _].
  destruct (record_read_through_white_space (record "1700000000000ms"))
    as [H2 _].
  destruct (record_read_through_white_space (record blank)) as [_ H3].
  unfold recorded_last.
  rewrite (H1 1700000000000 marked [65279; 160]%N [13; 10]%N);
    [ | vm_compute; discriminate | reflexivity | reflexivity | reflexivity
      | reflexivity ].
  rewrite (H2 1700000000000 "1700000000000ms" [] (bytes_of "ms"));
    [ | vm_compute; discriminate | reflexivity | reflexivity | reflexivity
      | reflexivity ].
  rewrite (H3 blank); [ | reflexivity | reflexivity ].
  repeat split.
Defined.

(** ** From a failing reference to the reboot *)

(** X10. A reference that keeps failing leads to the reboot. From a
    clear alarm, a rejected request raises the alarm with the deadline
    [reading + TIMEOUT_DURATION]; whatever follows without an in-sync
    sample keeps it; and the tick that follows issues the reboot command
    exactly when its reading has reached that deadline and the guard
    permits. *)
Theorem persistent_failure_reboots_after_timeout
    (env platform : string) (A T MIN : Z) (w : World) (reason : string)
    (es : list Event) :
  alarm w = false ->
  no_in_sync_sample env platform A T MIN es
    (world (job env platform A T MIN (RequestSettles (Rejected reason)) w)) = true ->
  let w2 := world (run_events env platform A T MIN
                     (RequestSettles (Rejected reason) :: es) w) in
  let deadline := clock w (S (reads w)) + T in
  alarm w2 = true /\ timestamp_alarm w2 = deadline /\
  (reboot_issued (interval_callback env platform MIN w2) = true <->
   deadline <= next_reading w2 /\
   MIN <= clock w2 (S (reads w2)) - recorded_last w2).
Proof.
  intros Ha Hno. cbv zeta.
  rewrite run_events_cons, job_completes.
  set (w1 := world (job env platform A T MIN (RequestSettles (Rejected reason)) w))
    in *.
  assert (H1 : alarm w1 = true /\ timestamp_alarm w1 = clock w (S (reads w)) + T).
  { unfold w1. rewrite job_request_settles.
    destruct w as [a d f g c n i m]. cbn [alarm] in Ha. subst a.
    split; reflexivity. }
  destruct H1 as [Ha1 Ht1].
  destruct (run_events_stays_armed env platform A T MIN es w1 Ha1 Hno)
    as [Ha2 Ht2].
  split; [exact Ha2 | split; [congruence | ]].
  rewrite interval_callback_reboot_iff, Ha2, Ht2, Ht1. tauto.
Qed.

(** The server is down from 1700000000000 on, the timeout is three
    minutes: the tick at 1700000100000 does not reboot, the tick at
    1700000200000 does. *)
Lemma persistent_failure_reboots_after_timeout_witness :
  let w := initial_world None true (ticking_clock 1700000000000) eacces_message in
  let w2 := world (run_events "production" "linux" 300000 180000 1800000
                     [RequestSettles (Rejected "ECONNREFUSED"); IntervalFires;
                      RequestSettles (Rejected "ECONNREFUSED")]
                     (set_in_flight 2 w)) in
  let at_time t :=
    mkWorld (alarm w2) (timestamp_alarm w2) (guard_file w2) (guard_writable w2)
            (ticking_clock t) 0 (in_flight w2) (guard_write_failure w2) in
  timestamp_alarm w2 = 1700000180001 /\
  reboot_issued (interval_callback "production" "linux" 1800000
                   (at_time 1700000100000)) = false /\
  reboot_issued (interval_callback "production" "linux" 1800000
                   (at_time 1700000200000)) = true.
Proof.
  intros w w2 at_time.
  destruct (persistent_failure_reboots_after_timeout
              "production" "linux" 300000 180000 1800000 (set_in_flight 2 w)
              "ECONNREFUSED"
              [IntervalFires; RequestSettles (Rejected "ECONNREFUSED")]
              eq_refl eq_refl) as (_ & Ht & _).
  split; [exact Ht | ].
  split; vm_compute; reflexivity.
Defined.

(** ** The end of the reboot command *)

(** X11. The callback of [exec] reports success only when there is
    neither an error nor any output on stderr: "Restart command executed"
    is logged exactly then, an error is logged exactly when there is one,
    stderr exactly when it is not empty, and stdout only on success. The
    callback never throws and changes neither the alarm nor the record. *)
Theorem restart_outcome_reported
    (error : option Error) (stdout stderr : string) (w : World) :
  let o := exec_callback error stdout stderr w in
  ((exists ts, In (Log ts RestartCommandExecuted) (emitted o)) <->
   error = None /\ stderr = "") /\
  ((exists ts m, In (Log ts (ErrorRestarting m)) (emitted o)) <->
   error <> None) /\
  ((exists ts out, In (Log ts (ErrorExecutingRestart out)) (emitted o)) <->
   stderr <> "") /\
  ((exists ts out, In (Log ts (CommandOutput out)) (emitted o)) <->
   error = None /\ stderr = "" /\ stdout <> "") /\
  completion o = Normal tt /\
  alarm (world o) = alarm w /\ timestamp_alarm (world o) = timestamp_alarm w /\
  guard_file (world o) = guard_file w.
Proof.
  cbv zeta.
  destruct w as [a d f g c n i m], error as [e | ],
           stdout as [ | c1 s1], stderr as [ | c2 s2];
    cbn;
    (split; [ | split; [ | split; [ | split; [ | repeat split]]]]);
    (split;
     [ intros Hex;
       repeat (let x := fresh "x" in destruct Hex as [x Hex]);
       intuition (try discriminate; try congruence)
     | intros HP;
       first [ exfalso; intuition congruence
             | repeat eexists; first [ left; reflexivity
                                     | right; left; reflexivity ] ] ]).
Qed.

(** A command that exits with status 0 but writes a warning to stderr is
    not reported as executed. *)
Lemma restart_outcome_reported_witness :
  let o := exec_callback None "Shutdown scheduled" "warning: no wall message"
             (initial_world None true (ticking_clock 1700000000000) eacces_message) in
  ~ (exists ts, In (Log ts RestartCommandExecuted) (emitted o)) /\
  (exists ts out, In (Log ts (ErrorExecutingRestart out)) (emitted o)).
Proof.
  intros o.
  destruct (restart_outcome_reported None "Shutdown scheduled"
              "warning: no wall message"
              (initial_world None true (ticking_clock 1700000000000) eacces_message))
    as (H1 & _ & H3 & _).
  split.
  - intros H. apply H1 in H. destruct H as [_ H]. discriminate H.
  - apply H3. discriminate.
Defined.

(** ** Start-up by the flags *)



(** ** Requests and drift *)

Lemma interval_callback_in_flight
    (env platform : string) (MIN : Z) (w : World) :
  in_flight (world (interval_callback env platform MIN w)) = S (in_flight w).
Proof.
  rewrite interval_callback_paths. cbv zeta.
  destruct (_ && _); cbn [world].
  - destruct (restartSystem_frame env platform MIN
                (set_reads (S (reads w)) (set_in_flight (S (in_flight w)) w)))
      as (_ & _ & _ & F).
    rewrite F. destruct w; reflexivity.
  - destruct w as [[ | ] ? ? ? ? ? ? ?]; reflexivity.
Qed.

(** X13. A tick sends its request whatever the state: the interval
    callback does not look at the requests still unanswered, so [k] ticks
    during which nothing is answered leave [k] more requests in flight
    and emit [k] requests more. *)
Theorem ticks_send_requests_unconditionally
    (env platform : string) (A T MIN : Z) (k : nat) (w : World) :
  let o := run_events env platform A T MIN (repeat IntervalFires k) w in
  in_flight (world o) = (in_flight w + k)%nat /\
  length (filter (fun e => match e with HttpGet => true | _ => false end)
                 (emitted o)) = k.
Proof.
  cbv zeta. revert w.
  induction k as [ | k IH]; intros w.
  - split; [cbn; apply plus_n_O | reflexivity].
  - cbn [repeat].
    rewrite run_events_cons, job_completes, run_events_cons_emitted.
    destruct (IH (world (job env platform A T MIN IntervalFires w))) as [IH1 IH2].
    split.
    + rewrite IH1. cbn [job]. rewrite interval_callback_in_flight.
      rewrite <- plus_n_Sm. reflexivity.
    + rewrite filter_app, length_app, IH2.
      cbn [job]. rewrite interval_callback_paths. cbv zeta.
      destruct (_ && _); cbn [emitted filter length]; [ | reflexivity].
      rewrite restartSystem_paths.
      destruct (_ <? _); [ | destruct (guard_writable _)]; reflexivity.
Qed.

(** X14. The direction of the drift plays no part: a reference [d]
    milliseconds ahead of the local clock and one [d] milliseconds behind
    it are classified alike, and the sample is out of sync exactly when
    [|d| > ALLOWED_DIFFERENCE]. *)
Theorem drift_direction_ignored (A T : Z) (d : Z) (w : World) :
  let ahead := Fulfilled (Timestamp (Num (next_reading w + d))) in
  let behind := Fulfilled (Timestamp (Num (next_reading w - d))) in
  alarm (world (checkTimestamp_resume A T ahead w)) =
  alarm (world (checkTimestamp_resume A T behind w)) /\
  (alarm (world (checkTimestamp_resume A T ahead w)) = true <-> A < Z.abs d).
Proof.
  cbv zeta. rewrite !checkTimestamp_resume_alarm.
  cbn [out_of_sync_at number_sub Math_abs number_gt].
  replace (Z.abs (next_reading w - (next_reading w + d))) with (Z.abs d) by lia.
  replace (Z.abs (next_reading w - (next_reading w - d))) with (Z.abs d) by lia.
  split; [reflexivity | apply Z.ltb_lt].
Qed.

(** Six minutes of drift with five allowed: out of sync in both
    directions. *)
Lemma drift_direction_ignored_witness :
  let w := initial_world None true (ticking_clock 1700000000000) eacces_message in
  alarm (world (checkTimestamp_resume 300000 180000
                  (Fulfilled (Timestamp (Num (1700000000000 + 360000)))) w)) = true /\
  alarm (world (checkTimestamp_resume 300000 180000
                  (Fulfilled (Timestamp (Num (1700000000000 - 360000)))) w)) = true.
Proof.
  intros w.
  destruct (drift_direction_ignored 300000 180000 360000 w) as [Heq Hiff].
  cbv zeta in Heq, Hiff.
  assert (H : alarm (world (checkTimestamp_resume 300000 180000
                 (Fulfilled (Timestamp (Num (next_reading w + 360000)))) w)) = true)
    by (apply Hiff; vm_compute; reflexivity).
  split; [exact H | ].
  change (1700000000000 - 360000) with (next_reading w - 360000).
  rewrite <- Heq. exact H.
Defined.
